(** * OAuth2 token lifecycle of the Autodesk Build MCP server

    A shallow embedding of [src/auth.js] (class [AuthManager]) together with
    the collaborators it talks to: the wall clock, the HTTP client ([axios])
    and the token store.  Asynchronous methods are written in a small
    state-and-exception monad over a [World]; the replies of the provider are
    supplied by an environment [Env], so that every run can be evaluated.

    Conventions.
    - JavaScript [null] and [undefined] are both [None].
    - Times are integer milliseconds since the epoch, as [Date.now()] returns
      them; [expires_in] is an integer number of seconds.  The source
      computes on doubles, which are exact on the integers a valid date can
      hold, so the arithmetic is that of [Z].
    - [Date] keeps the "Invalid Date" value that [new Date(t)] produces when
      [t] is outside the representable range. *)

From Stdlib Require Import ZArith String Ascii List Bool Lia DecimalString.
Import ListNotations.

Local Open Scope string_scope.
Local Open Scope list_scope.
Local Open Scope Z_scope.

(** ** JavaScript values used by the source *)

(** Truthiness of a string-or-null value: [null], [undefined] and the empty
    string are falsy. *)
Definition truthy_string (s : option string) : bool :=
  match s with
  | None => false
  | Some EmptyString => false
  | Some (String _ _) => true
  end.

(** [a || b] on string-or-null values. *)
Definition or_string (a b : option string) : option string :=
  if truthy_string a then a else b.

(** [n || d] on number-or-undefined values: [undefined] and [0] are falsy. *)
Definition or_number (n : option Z) (d : Z) : Z :=
  match n with
  | None => d
  | Some v => if v =? 0 then d else v
  end.

(** The [Date] object: a time value in milliseconds, or "Invalid Date". *)
Inductive Date : Type :=
| Time (ms : Z)
| InvalidDate.

(** Largest magnitude of a time value (ECMAScript TimeClip). *)
Definition MAX_TIME : Z := 8640000000000000.

(** [new Date(t)]. *)
Definition newDate (t : Z) : Date :=
  if Z.abs t <=? MAX_TIME then Time t else InvalidDate.

(** [a >= b] on dates: the comparison of the time values, false as soon as
    one of them is NaN. *)
Definition Date_ge (a b : Date) : bool :=
  match a, b with
  | Time x, Time y => y <=? x
  | _, _ => false
  end.

(** What a rejected [axios] promise carries: a message and, when the server
    answered, the HTTP status and the body. *)
Record HttpError : Type := mkHttpError {
  err_status : Z;
  err_data : option string
}.

Record AxiosRejection : Type := mkAxiosRejection {
  rej_message : string;
  rej_response : option HttpError
}.

(** Exceptions that travel through the code. [Error m] is [new Error(m)],
    the only kind the [AuthManager] constructs itself. *)
Inductive JsError : Type :=
| Error (message : string)
| AxiosError (rejection : AxiosRejection)
| RangeError (message : string)
| TypeError (message : string)
| StorageError (message : string).

(** [error.message]. *)
Definition error_message (e : JsError) : string :=
  match e with
  | Error m => m
  | AxiosError r => rej_message r
  | RangeError m => m
  | TypeError m => m
  | StorageError m => m
  end.

(** [error.response?.status]. *)
Definition error_status (e : JsError) : option Z :=
  match e with
  | AxiosError r => option_map err_status (rej_response r)
  | _ => None
  end.

(** [error.response?.data]: the provider's error payload, when there is one. *)
Definition error_payload (e : JsError) : option string :=
  match e with
  | AxiosError r =>
      match rej_response r with
      | Some resp => err_data resp
      | None => None
      end
  | _ => None
  end.

(** [error.response?.data || error.message], the detail the logger prints. *)
Definition error_detail (e : JsError) : string :=
  match or_string (error_payload e) (Some (error_message e)) with
  | Some s => s
  | None => ""
  end.

(** [date.toISOString()] throws a [RangeError] on an invalid date; the text
    it returns denotes the instant exactly, so the instant stands for it. *)
Definition toISOString (d : Date) : JsError + Z :=
  match d with
  | Time ms => inr ms
  | InvalidDate => inl (RangeError "Invalid time value")
  end.

(** ** The token store *)

Module TokenStorage.

(** The persisted layout [{accessToken, refreshToken, expiresAt}]. *)
Record tokens : Type := mkTokens {
  accessToken : option string;
  refreshToken : option string;
  expiresAt : Z
}.

(** Modelled from the spec: [src/utils/tokenStorage.js] (class
    [TokenStorage]) is imported by [auth.js] and is not part of the
    sources.  The store holds exactly one record or none; [getTokens]
    returns the record or an explicit absent value, [saveTokens] persists
    the record, [clearTokens] removes it and is idempotent.  A persist
    failure is possible (the spec speaks of a persist failure being
    reported): the backend accepts writes only while [writable]. *)
Record t : Type := mkStore {
  stored : option tokens;
  writable : bool
}.

(** Modelled from the spec: [getTokens] of the missing
    [tokenStorage.js]; the record, or an explicit absent value. *)
Definition getTokens (s : t) : option tokens := stored s.

(** Modelled from the spec: [saveTokens] of the missing
    [tokenStorage.js]; the record is persisted whole or, on a persist
    failure, not at all. *)
Definition saveTokens (r : tokens) (s : t) : t * (JsError + unit) :=
  if writable s
  then (mkStore (Some r) (writable s), inr tt)
  else (s, inl (StorageError "token store is not writable")).

(** Modelled from the spec: [clearTokens] of the missing
    [tokenStorage.js]; removes the record, and clearing an empty store is
    not an error. *)
Definition clearTokens (s : t) : t := mkStore None (writable s).

End TokenStorage.

(** ** The [AuthManager] object *)

Record AuthManager : Type := mkAuthManager {
  accessToken : option string;
  refreshToken : option string;
  tokenExpiry : option Date;
  isAuthenticated : bool;
  tokenStorage : TokenStorage.t;
  logApiCalls : bool                    (* [config.debug.logApiCalls] *)
}.

(** The body of a token response, [{access_token, refresh_token?, expires_in}]. *)
Record TokenData : Type := mkTokenData {
  access_token : option string;
  refresh_token : option string;
  expires_in : option Z
}.

(** The form posted to the token endpoint; the client credentials and the
    redirect URI are constants of the configuration and are left out. *)
Inductive Grant : Type :=
| authorization_code (code : string)
| refresh_token_grant (token : string).

(** Request options handed to [makeAuthenticatedRequest]; of
    [options.headers] only a caller-supplied [Authorization] matters here. *)
Record Options : Type := mkOptions {
  method : string;
  url : string;
  opt_authorization : option string
}.

(** The [Authorization] header that is finally sent. *)
Inductive AuthHeader : Type :=
| Bearer (token : option string)        (* [`Bearer ${token}`] *)
| Custom (value : string).              (* taken from [options.headers] *)

(** [{...headers, ...options.headers}]: the caller's header wins. *)
Definition merge_headers (headers : AuthHeader) (options : Options) : AuthHeader :=
  match opt_authorization options with
  | Some v => Custom v
  | None => headers
  end.

Record ApiResponse : Type := mkApiResponse {
  status : Z;
  data : string
}.

(** Requests handed to [axios], in the order they are issued. *)
Inductive NetCall : Type :=
| TokenPost (g : Grant)
| ApiCall (options : Options) (authorization : AuthHeader).

Inductive Level : Type := log_debug | log_info | log_error.

Record LogEntry : Type := mkLog {
  level : Level;
  text : string;
  detail : option string
}.

(** Everything a method can read or change. *)
Record World : Type := mkWorld {
  this : AuthManager;
  clock : Z;                            (* [Date.now()] *)
  trace : list NetCall;                 (* oldest first *)
  logs : list LogEntry;
  emitted : list string                 (* [this.emit(...)] *)
}.

(** What the network answers: how long the answer takes and whether the
    promise resolves or rejects. *)
Record Reply (A : Type) : Type := mkReply {
  delay : Z;
  outcome : AxiosRejection + A
}.
Arguments mkReply {A} _ _.
Arguments delay {A} _.
Arguments outcome {A} _.

(** The provider and the API, as seen from the client: the answer may depend
    on the request and on how many requests were issued before it. *)
Record Env : Type := mkEnv {
  token_endpoint : nat -> Grant -> Reply TokenData;
  api_endpoint : nat -> Options -> AuthHeader -> Reply ApiResponse
}.

(** ** The monad of asynchronous methods *)

Inductive Completion (A : Type) : Type :=
| Return (a : A)
| Throw (e : JsError).
Arguments Return {A} _.
Arguments Throw {A} _.

Definition Async (A : Type) : Type := World -> World * Completion A.

Definition ret {A} (a : A) : Async A := fun w => (w, Return a).

Definition throw {A} (e : JsError) : Async A := fun w => (w, Throw e).

Definition bind {A B} (m : Async A) (k : A -> Async B) : Async B :=
  fun w =>
    match m w with
    | (w', Return a) => k a w'
    | (w', Throw e) => (w', Throw e)
    end.

(** [try { body } catch (error) { handler }]. *)
Definition try_catch {A} (body : Async A) (handler : JsError -> Async A) : Async A :=
  fun w =>
    match body w with
    | (w', Return a) => (w', Return a)
    | (w', Throw e) => handler e w'
    end.

Declare Scope async_scope.
Delimit Scope async_scope with async.
Notation "x <- m ;; k" := (bind m (fun x => k))
  (at level 61, m at next level, right associativity) : async_scope.
Notation "m ;; k" := (bind m (fun _ => k))
  (at level 61, right associativity) : async_scope.
Local Open Scope async_scope.

(** Reading and updating the world. *)
Definition read {A} (f : AuthManager -> A) : Async A :=
  fun w => (w, Return (f (this w))).

Definition update (f : AuthManager -> AuthManager) : Async unit :=
  fun w => (mkWorld (f (this w)) (clock w) (trace w) (logs w) (emitted w), Return tt).

Definition Date_now : Async Z := fun w => (w, Return (clock w)).

Definition logger (l : Level) (msg : string) (d : option string) : Async unit :=
  fun w => (mkWorld (this w) (clock w) (trace w) (logs w ++ [mkLog l msg d]) (emitted w),
            Return tt).

Definition emit (event : string) : Async unit :=
  fun w => (mkWorld (this w) (clock w) (trace w) (logs w) (emitted w ++ [event]), Return tt).

Definition lift {A} (r : JsError + A) : Async A :=
  match r with
  | inl e => throw e
  | inr a => ret a
  end.

(** Field assignments [this.f = v]. *)
Definition set_accessToken (v : option string) (a : AuthManager) : AuthManager :=
  mkAuthManager v (refreshToken a) (tokenExpiry a) (isAuthenticated a)
                (tokenStorage a) (logApiCalls a).
Definition set_refreshToken (v : option string) (a : AuthManager) : AuthManager :=
  mkAuthManager (accessToken a) v (tokenExpiry a) (isAuthenticated a)
                (tokenStorage a) (logApiCalls a).
Definition set_tokenExpiry (v : option Date) (a : AuthManager) : AuthManager :=
  mkAuthManager (accessToken a) (refreshToken a) v (isAuthenticated a)
                (tokenStorage a) (logApiCalls a).
Definition set_isAuthenticated (v : bool) (a : AuthManager) : AuthManager :=
  mkAuthManager (accessToken a) (refreshToken a) (tokenExpiry a) v
                (tokenStorage a) (logApiCalls a).
Definition set_tokenStorage (v : TokenStorage.t) (a : AuthManager) : AuthManager :=
  mkAuthManager (accessToken a) (refreshToken a) (tokenExpiry a) (isAuthenticated a)
                v (logApiCalls a).

(** Calls into the store held in [this.tokenStorage]. *)
Definition tokenStorage_getTokens : Async (option TokenStorage.tokens) :=
  read (fun a => TokenStorage.getTokens (tokenStorage a)).

Definition tokenStorage_saveTokens (r : TokenStorage.tokens) : Async unit :=
  s <- read tokenStorage ;;
  let (s', res) := TokenStorage.saveTokens r s in
  update (set_tokenStorage s') ;;
  lift res.

Definition tokenStorage_clearTokens : Async unit :=
  update (fun a => set_tokenStorage (TokenStorage.clearTokens (tokenStorage a)) a).

(** ** The methods of [AuthManager] *)

Section Methods.

Variable env : Env.

(** Handing a request to [axios] puts it on the wire at once; the promise
    settles when the answer arrives, [delay] milliseconds later. *)
Definition axios_send (c : NetCall) (w : World) : World :=
  mkWorld (this w) (clock w) (trace w ++ [c]) (logs w) (emitted w).

Definition axios_receive {A} (r : Reply A) : Async A :=
  fun w =>
    let w' := mkWorld (this w) (clock w + delay r) (trace w) (logs w) (emitted w) in
    match outcome r with
    | inl rej => (w', Throw (AxiosError rej))
    | inr a => (w', Return a)
    end.

(** [await axios.post(this.endpoints.auth.token, form)]. *)
Definition axios_post (g : Grant) : Async TokenData :=
  fun w =>
    axios_receive (token_endpoint env (length (trace w)) g) (axios_send (TokenPost g) w).

(** [await axios({...options, headers})]. *)
Definition axios (options : Options) (headers : AuthHeader) : Async ApiResponse :=
  fun w =>
    axios_receive (api_endpoint env (length (trace w)) options headers)
                  (axios_send (ApiCall options headers) w).

(** The constructor, up to its (unawaited) call of [loadTokens]. *)
Definition constructor (config_logApiCalls : bool) (store : TokenStorage.t) : AuthManager :=
  mkAuthManager None None None false store config_logApiCalls.

(** [isTokenExpired], as a function of the current time. *)
Definition expired_at (now : Z) (a : AuthManager) : bool :=
  match tokenExpiry a with
  | None => true
  | Some expiry => Date_ge (Time now) expiry
  end.

Definition isTokenExpired : Async bool :=
  now <- Date_now ;;
  read (expired_at now).

Definition saveTokens (tokenData : TokenData) : Async unit :=
  update (set_accessToken (access_token tokenData)) ;;
  update (fun a => set_refreshToken (or_string (refresh_token tokenData) (refreshToken a)) a) ;;
  (* Calculate expiry time (subtract 5 minutes for safety) *)
  let expiresIn := or_number (expires_in tokenData) 3600 in
  now <- Date_now ;;
  update (set_tokenExpiry (Some (newDate (now + (expiresIn - 300) * 1000)))) ;;
  update (set_isAuthenticated true) ;;
  (* Save to storage *)
  at_ <- read accessToken ;;
  rt <- read refreshToken ;;
  expiry <- read tokenExpiry ;;
  iso <- lift (match expiry with
               | Some d => toISOString d
               | None => inl (TypeError "Cannot read properties of null")
               end) ;;
  tokenStorage_saveTokens (TokenStorage.mkTokens at_ rt iso).

Definition clearTokens : Async unit :=
  update (set_accessToken None) ;;
  update (set_refreshToken None) ;;
  update (set_tokenExpiry None) ;;
  update (set_isAuthenticated false) ;;
  tokenStorage_clearTokens ;;
  logger log_info "Cleared authentication tokens" None ;;
  emit "logout".

Definition handleCallback (code : string) : Async bool :=
  try_catch
    (response <- axios_post (authorization_code code) ;;
     saveTokens response ;;
     logger log_info "Successfully authenticated with Autodesk" None ;;
     emit "authenticated" ;;
     ret true)
    (fun err =>
       logger log_error "Failed to exchange authorization code:" (Some (error_detail err)) ;;
       throw (Error "Authentication failed")).

(** The string behind a truthy string-or-null value. *)
Definition string_value (s : option string) : string :=
  match s with
  | Some v => v
  | None => ""
  end.

(** In the [catch] block [this.clearTokens()] is called without [await]:
    its assignments and its call into the store happen before the [throw];
    it cannot itself raise into this method. *)
Definition refreshAccessToken : Async bool :=
  rt <- read refreshToken ;;
  if negb (truthy_string rt)
  then throw (Error "No refresh token available")
  else
    try_catch
      (logger log_debug "Refreshing access token..." None ;;
       response <- axios_post (refresh_token_grant (string_value rt)) ;;
       saveTokens response ;;
       logger log_info "Successfully refreshed access token" None ;;
       emit "token_refreshed" ;;
       ret true)
      (fun err =>
         logger log_error "Failed to refresh token:" (Some (error_detail err)) ;;
         (* Clear tokens if refresh fails *)
         clearTokens ;;
         throw (Error "Token refresh failed - please re-authenticate")).

Definition loadTokens : Async unit :=
  try_catch
    (tokens <- tokenStorage_getTokens ;;
     match tokens with
     | Some t =>
         update (set_accessToken (TokenStorage.accessToken t)) ;;
         update (set_refreshToken (TokenStorage.refreshToken t)) ;;
         update (set_tokenExpiry (Some (newDate (TokenStorage.expiresAt t)))) ;;
         update (set_isAuthenticated true) ;;
         logger log_info "Loaded existing authentication tokens" None ;;
         (* Check if token needs refresh *)
         expired <- isTokenExpired ;;
         if expired then (refreshAccessToken ;; ret tt) else ret tt
     | None => ret tt
     end)
    (fun _ => logger log_debug "No existing tokens found" None).

Definition getAccessToken : Async (option string) :=
  authenticated <- read isAuthenticated ;;
  if negb authenticated
  then throw (Error "Not authenticated - please run with --auth flag to authenticate")
  else
    expired <- isTokenExpired ;;
    (if expired then (refreshAccessToken ;; ret tt) else ret tt) ;;
    read accessToken.

Definition getAuthHeaders : Async AuthHeader :=
  token <- getAccessToken ;;
  ret (Bearer token).

(** [if (this.config.debug.logApiCalls) logger.debug(...)]. *)
Definition log_api (msg : string) : Async unit :=
  enabled <- read logApiCalls ;;
  if enabled then logger log_debug msg None else ret tt.

(** [error.response?.status === 401]. *)
Definition is_401 (e : JsError) : bool :=
  match error_status e with
  | Some s => s =? 401
  | None => false
  end.

Definition makeAuthenticatedRequest (options : Options) : Async ApiResponse :=
  headers <- getAuthHeaders ;;
  try_catch
    (log_api "API Request:" ;;
     response <- axios options (merge_headers headers options) ;;
     log_api "API Response:" ;;
     ret response)
    (fun err =>
       (* Handle token expiry *)
       if is_401 err
       then
         logger log_debug "Token expired, attempting refresh..." None ;;
         refreshAccessToken ;;
         (* Retry request with new token *)
         newHeaders <- getAuthHeaders ;;
         axios options (merge_headers newHeaders options)
       else throw err).

End Methods.

(** ** Several callers at once

    JavaScript runs one turn of the event loop at a time; an [async] method
    runs without interruption up to its next [await] that has to wait.  A call
    of [getAccessToken] is therefore cut at the two places where it waits:
    for the answer of the token endpoint and for the store. *)

Inductive Task : Type :=
| AwaitingAxios (n : nat) (g : Grant)   (* at [await axios.post(...)], request number [n] *)
| AwaitingSave                          (* at [await this.tokenStorage.saveTokens(...)] *)
| Settled (c : Completion (option string)).

Section Concurrency.

Variable env : Env.

(** The call itself: everything up to the first wait. *)
Definition getAccessToken_call (w : World) : World * Task :=
  if negb (isAuthenticated (this w))
  then (w, Settled (Throw (Error "Not authenticated - please run with --auth flag to authenticate")))
  else if expired_at (clock w) (this w)
  then
    let rt := refreshToken (this w) in
    if negb (truthy_string rt)
    then (w, Settled (Throw (Error "No refresh token available")))
    else
      let g := refresh_token_grant (string_value rt) in
      let w1 := fst (logger log_debug "Refreshing access token..." None w) in
      (axios_send (TokenPost g) w1, AwaitingAxios (length (trace w1)) g)
  else (w, Settled (Return (accessToken (this w)))).

(** The answer to request [n] arrives: the rest of the [try] block of
    [refreshAccessToken] up to the wait inside [saveTokens], or its
    [catch] block. *)
Definition on_response (n : nat) (g : Grant) (w : World) : World * Task :=
  match
    try_catch
      (response <- axios_receive (token_endpoint env n g) ;;
       saveTokens response)
      (fun err =>
         logger log_error "Failed to refresh token:" (Some (error_detail err)) ;;
         clearTokens ;;
         throw (Error "Token refresh failed - please re-authenticate")) w
  with
  | (w', Return _) => (w', AwaitingSave)
  | (w', Throw e) => (w', Settled (Throw e))
  end.

(** The store has answered: [refreshAccessToken] finishes and
    [getAccessToken] returns [this.accessToken] as it is by then. *)
Definition on_saved (w : World) : World * Task :=
  match
    (logger log_info "Successfully refreshed access token" None ;;
     emit "token_refreshed" ;;
     read accessToken) w
  with
  | (w', c) => (w', Settled c)
  end.

Definition resume (t : Task) (w : World) : World * Task :=
  match t with
  | AwaitingAxios n g => on_response n g w
  | AwaitingSave => on_saved w
  | Settled c => (w, Settled c)
  end.

(** [n] calls made one after the other within one turn. *)
Fixpoint spawn (n : nat) (w : World) : World * list Task :=
  match n with
  | O => (w, [])
  | S k =>
      let (w1, t) := getAccessToken_call w in
      let (w2, ts) := spawn k w1 in
      (w2, t :: ts)
  end.

Fixpoint set_nth {A} (i : nat) (x : A) (l : list A) : list A :=
  match l, i with
  | [], _ => []
  | _ :: r, O => x :: r
  | y :: r, S j => y :: set_nth j x r
  end.

(** One turn: the caller [i] is woken up. *)
Definition step (i : nat) (cfg : World * list Task) : World * list Task :=
  match nth_error (snd cfg) i with
  | Some t => let (w', t') := resume t (fst cfg) in (w', set_nth i t' (snd cfg))
  | None => cfg
  end.

(** The turns of a schedule, in order. *)
Definition run (schedule : list nat) (cfg : World * list Task) : World * list Task :=
  fold_left (fun c i => step i c) schedule cfg.

End Concurrency.

(** Refresh requests among the requests issued. *)
Definition is_refresh (c : NetCall) : bool :=
  match c with
  | TokenPost (refresh_token_grant _) => true
  | _ => false
  end.

Definition refresh_requests (tr : list NetCall) : nat :=
  length (filter is_refresh tr).

Definition is_api (c : NetCall) : bool :=
  match c with
  | ApiCall _ _ => true
  | _ => false
  end.

Definition api_requests (tr : list NetCall) : nat :=
  length (filter is_api tr).

(** ** Vocabulary of the statements *)

(** The same world with another [AuthManager] state, or at another time. *)
Definition with_this (a : AuthManager) (w : World) : World :=
  mkWorld a (clock w) (trace w) (logs w) (emitted w).

Definition at_time (t : Z) (w : World) : World :=
  mkWorld (this w) t (trace w) (logs w) (emitted w).

(** The fields of [this] once the assignments of [saveTokens] are done. *)
Definition saved (td : TokenData) (now : Z) (a : AuthManager) : AuthManager :=
  mkAuthManager (access_token td)
                (or_string (refresh_token td) (refreshToken a))
                (Some (newDate (now + (or_number (expires_in td) 3600 - 300) * 1000)))
                true (tokenStorage a) (logApiCalls a).

(** The fields of [this] once the assignments of [clearTokens] are done. *)
Definition cleared (a : AuthManager) : AuthManager :=
  mkAuthManager None None None false
                (TokenStorage.clearTokens (tokenStorage a)) (logApiCalls a).

(** The in-memory token record and its persisted mirror are those of [a]. *)
Definition same_record (a b : AuthManager) : Prop :=
  accessToken b = accessToken a /\
  refreshToken b = refreshToken a /\
  tokenExpiry b = tokenExpiry a /\
  isAuthenticated b = isAuthenticated a /\
  TokenStorage.getTokens (tokenStorage b) = TokenStorage.getTokens (tokenStorage a).

(** A provider that answers after [d] milliseconds. *)
Definition resolves {A} (d : Z) (a : A) : Reply A := mkReply d (inr a).

Definition rejects {A} (d : Z) (msg : string) (r : option HttpError) : Reply A :=
  mkReply d (inl (mkAxiosRejection msg r)).

(** A freshly constructed manager over an empty, writable store, at time
    [1000]. *)
Definition fresh_world : World :=
  mkWorld (constructor false (TokenStorage.mkStore None true)) 1000 [] [] [].

(** The provider of the scenario of the specification: the code exchange
    yields AT1/RT1, a refresh yields AT2 and no refresh token; the API accepts
    every request. *)
Definition scenario_env : Env :=
  mkEnv
    (fun _ g =>
       match g with
       | authorization_code _ =>
           resolves 10 (mkTokenData (Some "AT1") (Some "RT1") (Some 3600))
       | refresh_token_grant _ =>
           resolves 10 (mkTokenData (Some "AT2") None (Some 3600))
       end)
    (fun _ _ _ => resolves 5 (mkApiResponse 200 "ok")).

(** A provider whose token endpoint is down: every refresh is answered with
    503 Service Unavailable (a transient failure); the code exchange works. *)
Definition outage_env : Env :=
  mkEnv
    (fun _ g =>
       match g with
       | authorization_code _ =>
           resolves 10 (mkTokenData (Some "AT1") (Some "RT1") (Some 3600))
       | refresh_token_grant _ =>
           rejects 10 "Request failed with status code 503"
                   (Some (mkHttpError 503 (Some "service_unavailable")))
       end)
    (fun _ _ _ => resolves 5 (mkApiResponse 200 "ok")).

(** A provider that has revoked the grant: every token request is answered
    with 400 and the payload [invalid_grant]. *)
Definition revoked_env : Env :=
  mkEnv
    (fun _ _ =>
       rejects 10 "Request failed with status code 400"
               (Some (mkHttpError 400 (Some "invalid_grant"))))
    (fun _ _ _ => resolves 5 (mkApiResponse 200 "ok")).

(** The world right after the code exchange of the scenario: AT1/RT1 in
    memory and in the store. *)
Definition authenticated_world : World :=
  fst (handleCallback scenario_env "abc123" fresh_world).

(** The world of the scenario once the token AT1 has run out: 3300 seconds
    after it was saved. *)
Definition expired_world : World :=
  at_time (clock authenticated_world + 3300 * 1000) authenticated_world.

(** A provider that hands out a new access token on every refresh: AT2 to
    the request number 1, AT3 to any later one. *)
Definition racing_env : Env :=
  mkEnv
    (fun n g =>
       match g with
       | authorization_code _ =>
           resolves 10 (mkTokenData (Some "AT1") (Some "RT1") (Some 3600))
       | refresh_token_grant _ =>
           if Nat.eqb n 1
           then resolves 10 (mkTokenData (Some "AT2") None (Some 3600))
           else resolves 10 (mkTokenData (Some "AT3") None (Some 3600))
       end)
    (fun _ _ _ => resolves 5 (mkApiResponse 200 "ok")).

(** What refresh coalescing asks of [n] callers started together and woken
    up along [schedule]: one refresh request in all, and the same access
    token for every caller. *)
Definition coalesced (env : Env) (w : World) (n : nat) (schedule : list nat) : Prop :=
  let cfg := run env schedule (spawn n w) in
  refresh_requests (trace (fst cfg)) = (refresh_requests (trace w) + 1)%nat /\
  exists token, Forall (fun t => t = Settled (Return token)) (snd cfg).

(** An API that no longer accepts AT1 (401) and accepts every other token;
    the token endpoint is that of the scenario. *)
Definition unauthorized : AxiosRejection :=
  mkAxiosRejection "Request failed with status code 401"
                   (Some (mkHttpError 401 (Some "unauthorized"))).

Definition stale_env : Env :=
  mkEnv
    (token_endpoint scenario_env)
    (fun _ _ h =>
       match h with
       | Bearer (Some "AT1") => mkReply 5 (inl unauthorized)
       | _ => resolves 5 (mkApiResponse 200 "ok")
       end).

(** An API that answers 401 whatever the token. *)
Definition locked_env : Env :=
  mkEnv
    (token_endpoint scenario_env)
    (fun _ _ _ => mkReply 5 (inl unauthorized)).

Definition list_issues : Options := mkOptions "GET" "/issues" None.

(** [m] hands at most [na] API requests and at most [nr] refresh requests
    to [axios], from whatever world it starts. *)
Definition Sends {A} (na nr : nat) (m : Async A) : Prop :=
  forall w,
    (api_requests (trace (fst (m w))) <= api_requests (trace w) + na)%nat /\
    (refresh_requests (trace (fst (m w))) <= refresh_requests (trace w) + nr)%nat.

(** ** The rest of the class: vocabulary *)

(** [m] hands [axios] at most [k] requests, all of them satisfying [P], and
    takes nothing back from what was already sent. *)
Definition EmitsN {A} (k : nat) (P : NetCall -> Prop) (m : Async A) : Prop :=
  forall w, exists l, trace (fst (m w)) = trace w ++ l /\ Forall P l /\ (length l <= k)%nat.

Definition refresh_call (c : NetCall) : Prop := is_refresh c = true.

(** A new process: the constructor run over the store the manager [a]
    leaves behind, at time [t]; what the network and the log have seen is
    that of [w]. *)
Definition restart (a : AuthManager) (t : Z) (w : World) : World :=
  mkWorld (constructor (logApiCalls a) (tokenStorage a)) t (trace w) (logs w) (emitted w).

(** The fields of [this] once the assignments of [loadTokens] are done. *)
Definition loaded (r : TokenStorage.tokens) (a : AuthManager) : AuthManager :=
  mkAuthManager (TokenStorage.accessToken r) (TokenStorage.refreshToken r)
                (Some (newDate (TokenStorage.expiresAt r))) true
                (tokenStorage a) (logApiCalls a).

(** ** The authorization URL *)













(** ** Tool registration and tool handlers (tools/index.js) *)

Module Tools.

Set Warnings "-register-all".

(** The classes of zod the converters tell apart, each with the
    [description] it carries; [ZodOther] is any other class (a default, a
    nullable, a union, an effect, ...). *)
Inductive ZodType : Type :=
| ZodString (description : option string)
| ZodNumber (description : option string)
| ZodBoolean (description : option string)
| ZodArray (element : ZodType) (description : option string)
| ZodEnum (options : list string) (description : option string)
| ZodOptional (inner : ZodType) (description : option string)
| ZodObject (shape : list (string * ZodType)) (description : option string)
| ZodOther (description : option string).

(** The JSON Schema objects the converters build. *)
Inductive JsonSchema : Type :=
| JString (description : option string)
| JNumber (description : option string)
| JBoolean (description : option string)
| JArray (items : JsonSchema) (description : option string)
| JEnum (enum : list string) (description : option string)
| JObject (properties : list (string * JsonSchema)) (description : option string)
| JFallback.                              (* [{ type: 'string' }] *)

(** The [type] member of a JSON Schema object. *)
Definition json_type (j : JsonSchema) : string :=
  match j with
  | JString _ => "string"
  | JNumber _ => "number"
  | JBoolean _ => "boolean"
  | JArray _ _ => "array"
  | JEnum _ _ => "string"
  | JObject _ _ => "object"
  | JFallback => "string"
  end.

(** The loop [for (const [key, value] of Object.entries(shape))
    properties[key] = convert(value)] on the plain object [properties = {}].
    The keys of the entries are distinct; every assigned value is an object,
    so the key [__proto__] goes through the prototype setter: it replaces the
    prototype of [properties] and adds no property.  What is kept here are
    the own properties, in order. *)
Definition assign_properties {A B : Type} (convert : A -> B)
  : list (string * A) -> list (string * B) :=
  fix assign (entries : list (string * A)) : list (string * B) :=
    match entries with
    | [] => []
    | (key, value) :: rest =>
        if String.eqb key "__proto__"
        then assign rest
        else (key, convert value) :: assign rest
    end.

(** [zodTypeToJsonSchema]; for an object its loop is that of
    [zodToJsonSchema]. *)
Fixpoint zodTypeToJsonSchema (zodType : ZodType) : JsonSchema :=
  match zodType with
  | ZodString d => JString d
  | ZodNumber d => JNumber d
  | ZodBoolean d => JBoolean d
  | ZodArray element d => JArray (zodTypeToJsonSchema element) d
  | ZodEnum options d => JEnum options d
  | ZodOptional inner _ => zodTypeToJsonSchema inner
  | ZodObject shape d => JObject (assign_properties zodTypeToJsonSchema shape) d
  | ZodOther _ => JFallback
  end.

Definition zodToJsonSchema (schema : ZodType) : list (string * JsonSchema) :=
  match schema with
  | ZodObject shape _ => assign_properties zodTypeToJsonSchema shape
  | _ => []
  end.

Definition is_ZodOptional (t : ZodType) : bool :=
  match t with
  | ZodOptional _ _ => true
  | _ => false
  end.

Definition getRequiredFields (schema : ZodType) : list string :=
  match schema with
  | ZodObject shape _ =>
      map fst (filter (fun kv => negb (is_ZodOptional (snd kv))) shape)
  | _ => []
  end.

(** [schema.description]. *)
Definition zod_description (t : ZodType) : option string :=
  match t with
  | ZodString d | ZodNumber d | ZodBoolean d | ZodArray _ d | ZodEnum _ d
  | ZodOptional _ d | ZodObject _ d | ZodOther d => d
  end.


(** An issue of a [ZodError]: where and what. *)
Inductive PathItem : Type :=
| Key (k : string)
| Index (i : N).

Record ZodIssue : Type := mkIssue {
  path : list PathItem;
  message : string
}.

(** What a [catch] clause of this module can receive. *)
Inductive Thrown : Type :=
| ZodError (errors : list ZodIssue)
| Exception (message : option string)   (* any other object, with its [message] *)
| ThrownNull
| ThrownUndefined.

(** [`${n}`] for a count. *)
Definition number_text (n : nat) : string := NilZero.string_of_uint (Nat.to_uint n).

(** [`${x}`] for a string-or-undefined value. *)
Definition template_text (s : option string) : string :=
  match s with
  | Some v => v
  | None => "undefined"
  end.

Definition path_item_text (p : PathItem) : string :=
  match p with
  | Key k => k
  | Index i => NilZero.string_of_uint (N.to_uint i)
  end.

(** [`${e.path.join('.')}: ${e.message}`]. *)
Definition issue_text (e : ZodIssue) : string :=
  (String.concat "." (map path_item_text (path e)) ++ ": " ++ message e)%string.

(** [error.errors.map(...).join(', ')]. *)
Definition issues_text (errors : list ZodIssue) : string :=
  String.concat ", " (map issue_text errors).

(** What the logger is given as its second argument for a caught value. *)
Definition thrown_detail (t : Thrown) : option string :=
  match t with
  | ZodError errors => Some (issues_text errors)
  | Exception m => m
  | ThrownNull => Some "null"
  | ThrownUndefined => Some "undefined"
  end.

Section Registry.

(** Everything the registration functions and the tool handlers act on (the
    MCP server, the auth manager, the network). *)
Variable S : Type.

Definition State : Type := S * list LogEntry.

Definition Tool (A : Type) : Type := State -> State * (Thrown + A).

Definition log (l : Level) (msg : string) (d : option string) (st : State) : State :=
  (fst st, snd st ++ [mkLog l msg d]).

(** The body of the [for] loop of [registerTools], over what is left of
    [toolRegistrations]. *)
Fixpoint register_each (toolRegistrations : list (string * Tool nat)) (totalTools : nat)
  : Tool nat :=
  fun st =>
    match toolRegistrations with
    | [] => (st, inr totalTools)
    | (name, register) :: rest =>
        match register st with
        | (st1, inr count) =>
            register_each rest (totalTools + count)
              (log log_info ("Registered " ++ number_text count ++ " " ++ name ++ " tools")%string
                   None st1)
        | (st1, inl error) =>
            (log log_error ("Failed to register " ++ name ++ " tools:")%string
                 (thrown_detail error) st1,
             inl error)
        end
    end.

(** [registerTools], over the registration functions of the nine tool
    modules, which are not part of the sources. *)
Definition registerTools_over (toolRegistrations : list (string * Tool nat)) : Tool nat :=
  fun st =>
    match register_each toolRegistrations 0 (log log_info "Registering tools..." None st) with
    | (st1, inr totalTools) =>
        (log log_info ("Total tools registered: " ++ number_text totalTools)%string None st1,
         inr totalTools)
    | (st1, inl error) => (st1, inl error)
    end.

Record Registrations : Type := mkRegistrations {
  registerProjectTools : Tool nat;
  registerIssueTools : Tool nat;
  registerRfiTools : Tool nat;
  registerSubmittalTools : Tool nat;
  registerPhotoTools : Tool nat;
  registerFormTools : Tool nat;
  registerCostTools : Tool nat;
  registerLocationTools : Tool nat;
  registerDocumentTools : Tool nat
}.

Definition toolRegistrations (r : Registrations) : list (string * Tool nat) :=
  [("Projects", registerProjectTools r);
   ("Issues", registerIssueTools r);
   ("RFIs", registerRfiTools r);
   ("Submittals", registerSubmittalTools r);
   ("Photos", registerPhotoTools r);
   ("Forms", registerFormTools r);
   ("Cost", registerCostTools r);
   ("Locations", registerLocationTools r);
   ("Documents", registerDocumentTools r)].

Definition registerTools (r : Registrations) : Tool nat :=
  registerTools_over (toolRegistrations r).

(** What a tool handler answers. *)
Record ToolResult : Type := mkToolResult {
  text : option string;
  isError : bool
}.

(** The [handler] member of [createTool(name, schema, handler)]:
    [parse] is [schema.parse], [stringify] is [JSON.stringify(_, null, 2)]. *)
Definition tool_handler {Args V R : Type} (name : string)
           (parse : Args -> Thrown + V) (handler : V -> Tool R)
           (stringify : R -> Thrown + option string) (args : Args) : Tool ToolResult :=
  fun st =>
    let attempt : State * (Thrown + option string) :=
      match parse args with
      | inl e => (st, inl e)
      | inr validatedArgs =>
          match handler validatedArgs st with
          | (st1, inl e) => (st1, inl e)
          | (st1, inr result) => (st1, stringify result)
          end
      end in
    match attempt with
    | (st1, inr t) => (st1, inr (mkToolResult t false))
    | (st1, inl (ZodError errors)) =>
        (st1, inr (mkToolResult (Some ("Validation error: " ++ issues_text errors)%string) true))
    | (st1, inl (Exception m)) =>
        (log log_error ("Tool " ++ name ++ " error:")%string m st1,
         inr (mkToolResult (Some ("Error: " ++ template_text m)%string) true))
    | (st1, inl ThrownNull) =>
        (log log_error ("Tool " ++ name ++ " error:")%string (Some "null") st1,
         inl (Exception (Some "Cannot read properties of null (reading 'message')")))
    | (st1, inl ThrownUndefined) =>
        (log log_error ("Tool " ++ name ++ " error:")%string (Some "undefined") st1,
         inl (Exception (Some "Cannot read properties of undefined (reading 'message')")))
    end.

End Registry.

(** The descriptor [createTool] returns, without its handler. *)
Record ToolInfo : Type := mkToolInfo {
  tool_name : string;
  tool_description : string;
  inputSchema_type : string;
  inputSchema_properties : list (string * JsonSchema);
  inputSchema_required : list string
}.

Definition createTool_info (name : string) (schema : ZodType) : ToolInfo :=
  mkToolInfo name
             (match or_string (zod_description schema) (Some ("Execute " ++ name)%string) with
              | Some d => d
              | None => ""
              end)
             "object"
             (zodToJsonSchema schema)
             (getRequiredFields schema).

End Tools.



(** ** More providers and worlds for the examples *)

(** A store that holds a record without refresh token, expired since time
    [5000]; the manager is built over it at time [6000]. *)
Definition orphan_record : TokenStorage.tokens :=
  TokenStorage.mkTokens (Some "AT1") None 5000.

Definition orphan_world : World :=
  mkWorld (constructor false (TokenStorage.mkStore (Some orphan_record) true)) 6000 [] [] [].

(** A new process over the store of the scenario, started long after AT1
    has run out. *)
Definition restarted_late : World :=
  restart (this authenticated_world) 4000000 authenticated_world.

(** A provider whose tokens claim a lifetime beyond what a [Date] can hold. *)
Definition eternal_env : Env :=
  mkEnv
    (fun _ _ => resolves 10 (mkTokenData (Some "AT9") (Some "RT9") (Some 10000000000000000)))
    (fun _ _ _ => resolves 5 (mkApiResponse 200 "ok")).

(** A provider whose refreshed tokens live two minutes. *)
Definition short_env : Env :=
  mkEnv
    (fun _ g =>
       match g with
       | authorization_code _ =>
           resolves 10 (mkTokenData (Some "AT1") (Some "RT1") (Some 3600))
       | refresh_token_grant _ =>
           resolves 10 (mkTokenData (Some "AT2") None (Some 120))
       end)
    (fun _ _ _ => resolves 5 (mkApiResponse 200 "ok")).

(** An API that answers 500. *)
Definition server_error : AxiosRejection :=
  mkAxiosRejection "Request failed with status code 500"
                   (Some (mkHttpError 500 (Some "internal"))).

Definition broken_api_env : Env :=
  mkEnv (token_endpoint scenario_env) (fun _ _ _ => mkReply 5 (inl server_error)).

(** An API that answers 401 while the provider has revoked the grant. *)
Definition invalid_grant : AxiosRejection :=
  mkAxiosRejection "Request failed with status code 400"
                   (Some (mkHttpError 400 (Some "invalid_grant"))).

Definition locked_out_env : Env :=
  mkEnv (fun _ _ => mkReply 10 (inl invalid_grant))
        (fun _ _ _ => mkReply 5 (inl unauthorized)).

(** A provider that rotates refresh tokens: the refresh request number 1 is
    answered, any later one with the same refresh token is rejected. *)
Definition rotating_env : Env :=
  mkEnv
    (fun n g =>
       match g with
       | authorization_code _ =>
           resolves 10 (mkTokenData (Some "AT1") (Some "RT1") (Some 3600))
       | refresh_token_grant _ =>
           if Nat.eqb n 1
           then resolves 10 (mkTokenData (Some "AT2") (Some "RT2") (Some 3600))
           else mkReply 10 (inl invalid_grant)
       end)
    (fun _ _ _ => resolves 5 (mkApiResponse 200 "ok")).

(** A request that brings its own [Authorization] header. *)
Definition signed_request : Options := mkOptions "GET" "/issues" (Some "Basic abc").

(** Registration functions over a server that is just the list of the tool
    names registered so far. *)
Definition register_names (names : list string) : Tools.Tool (list string) nat :=
  fun st => ((fst st ++ names, snd st), inr (length names)).

Definition register_failing (msg : string) : Tools.Tool (list string) nat :=
  fun st => (st, inl (Tools.Exception (Some msg))).

Definition sample_registrations : Tools.Registrations (list string) :=
  Tools.mkRegistrations (list string)
    (register_names ["list_projects"; "get_project"])
    (register_names ["list_issues"])
    (register_names [])
    (register_names ["list_submittals"])
    (register_names ["list_photos"])
    (register_names [])
    (register_names ["get_budget"])
    (register_names [])
    (register_names ["search_documents"]).

Definition broken_registrations : Tools.Registrations (list string) :=
  Tools.mkRegistrations (list string)
    (register_names ["list_projects"; "get_project"])
    (register_names ["list_issues"])
    (register_failing "boom")
    (register_names ["list_submittals"])
    (register_names ["list_photos"])
    (register_names [])
    (register_names ["get_budget"])
    (register_names [])
    (register_names ["search_documents"]).

(** A tool that takes a project id: validation asks for a non-empty one. *)
Definition parse_project_id (args : option string) : Tools.Thrown + string :=
  match args with
  | Some (String c r) => inr (String c r)
  | _ => inl (Tools.ZodError [Tools.mkIssue [Tools.Key "projectId"] "Required"])
  end.

Definition echo_handler (id : string) : Tools.Tool (list string) string :=
  fun st => ((fst st ++ [id], snd st), inr id).

Definition quote_stringify (r : string) : Tools.Thrown + option string := inr (Some r).


(** The API of [stale_env] behind the provider of [short_env]: AT1 is no
    longer accepted, and a refreshed token lives two minutes. *)
Definition short_stale_env : Env :=
  mkEnv (token_endpoint short_env) (api_endpoint stale_env).

(** What retrying once asks of a request whose first attempt is refused:
    after that attempt one refresh request, then one retry that carries the
    access token the manager holds by then, and nothing else. *)
Definition one_refresh_one_retry (env : Env) (options : Options) (w : World) : Prop :=
  let w' := fst (makeAuthenticatedRequest env options w) in
  exists h rt,
    trace w' = trace w ++ [ApiCall options h;
                           TokenPost (refresh_token_grant rt);
                           ApiCall options (Bearer (accessToken (this w')))].

(** ** Results *)

(** *** Elementary facts about the monad and the two writers of the record *)

Lemma saveTokens_eq (td : TokenData) (w : World) :
  saveTokens td w =
  let a := saved td (clock w) (this w) in
  match newDate (clock w + (or_number (expires_in td) 3600 - 300) * 1000) with
  | Time ms =>
      if TokenStorage.writable (tokenStorage (this w))
      then (with_this
              (set_tokenStorage
                 (TokenStorage.mkStore
                    (Some (TokenStorage.mkTokens (accessToken a) (refreshToken a) ms)) true) a) w,
            Return tt)
      else (with_this a w, Throw (StorageError "token store is not writable"))
  | InvalidDate => (with_this a w, Throw (RangeError "Invalid time value"))
  end.
Proof.
  destruct w as [[at0 rt0 ex0 au0 [st wr] lg] ck tr lgs em].
  unfold saveTokens, saved, with_this, bind, update, read, Date_now, lift,
    tokenStorage_saveTokens, TokenStorage.saveTokens. cbn.
  destruct (newDate _); cbn; [destruct wr; reflexivity | reflexivity].
Qed.

Lemma clearTokens_eq (w : World) :
  clearTokens w =
  (mkWorld (cleared (this w)) (clock w) (trace w)
           (logs w ++ [mkLog log_info "Cleared authentication tokens" None])
           (emitted w ++ ["logout"]),
   Return tt).
Proof.
  destruct w as [[at0 rt0 ex0 au0 st lg] ck tr lgs em]. reflexivity.
Qed.

Lemma newDate_in_range (t : Z) : Z.abs t <= MAX_TIME -> newDate t = Time t.
Proof.
  intros H. unfold newDate. destruct (Z.leb_spec (Z.abs t) MAX_TIME); [reflexivity | lia].
Qed.

Lemma or_number_falsy (n : option Z) (d : Z) :
  n = None \/ n = Some 0 -> or_number n d = d.
Proof. intros [-> | ->]; reflexivity. Qed.

Lemma or_number_truthy (v d : Z) : v <> 0 -> or_number (Some v) d = v.
Proof.
  intros H. unfold or_number. destruct (Z.eqb_spec v 0); [contradiction | reflexivity].
Qed.

(** What [saveTokens] leaves in memory does not depend on whether the store
    accepts the record. *)
Lemma saveTokens_memory (td : TokenData) (w : World) :
  let w' := fst (saveTokens td w) in
  accessToken (this w') = access_token td /\
  refreshToken (this w') = or_string (refresh_token td) (refreshToken (this w)) /\
  tokenExpiry (this w') =
    Some (newDate (clock w + (or_number (expires_in td) 3600 - 300) * 1000)) /\
  isAuthenticated (this w') = true /\
  clock w' = clock w /\ trace w' = trace w.
Proof.
  rewrite saveTokens_eq. cbv zeta. unfold saved.
  destruct (newDate _) eqn:E; [destruct (TokenStorage.writable _) |]; cbn;
    rewrite ?E; repeat split; reflexivity.
Qed.

Lemma isTokenExpired_eq (w : World) :
  isTokenExpired w = (w, Return (expired_at (clock w) (this w))).
Proof. reflexivity. Qed.

(** *** Expiry and the safety margin *)

(** C4. A token saved at time [T = clock w] with a reported lifetime [ttl]
    gets the expiry [T + (ttl - 300) * 1000] ms, never [T + ttl * 1000]; so
    [isTokenExpired] answers [false] at every instant strictly before it and
    [true] from it onward.  For [expires_in = 3600] the switch is at
    [T + 3300] seconds. *)
Theorem skew_invariant (td : TokenData) (w : World) (ttl : Z) :
  expires_in td = Some ttl ->
  ttl <> 0 ->
  Z.abs (clock w + (ttl - 300) * 1000) <= MAX_TIME ->
  let w' := fst (saveTokens td w) in
  tokenExpiry (this w') = Some (Time (clock w + (ttl - 300) * 1000)) /\
  tokenExpiry (this w') <> Some (Time (clock w + ttl * 1000)) /\
  (forall t, snd (isTokenExpired (at_time t w')) =
             Return (clock w + (ttl - 300) * 1000 <=? t)) /\
  (ttl = 3600 ->
   forall t,
     (t < clock w + 3300 * 1000 -> snd (isTokenExpired (at_time t w')) = Return false) /\
     (clock w + 3300 * 1000 <= t -> snd (isTokenExpired (at_time t w')) = Return true)).
Proof.
  intros Httl Hnz Hrange w'.
  assert (Hexp : tokenExpiry (this w') = Some (Time (clock w + (ttl - 300) * 1000))).
  { destruct (saveTokens_memory td w) as (_ & _ & He & _).
    subst w'. rewrite He, Httl, (or_number_truthy _ _ Hnz).
    now rewrite (newDate_in_range _ Hrange). }
  assert (Hq : forall t, snd (isTokenExpired (at_time t w')) =
                         Return (clock w + (ttl - 300) * 1000 <=? t)).
  { intros t. rewrite isTokenExpired_eq. cbn. unfold expired_at. now rewrite Hexp. }
  repeat split.
  - exact Hexp.
  - rewrite Hexp. intros H. injection H as H. lia.
  - exact Hq.
  - intros Hlt. rewrite Hq. subst ttl. f_equal. apply Z.leb_gt. lia.
  - intros Hge. rewrite Hq. subst ttl. f_equal. apply Z.leb_le. lia.
Qed.

Lemma skew_invariant_witness :
  let td := mkTokenData (Some "AT1") (Some "RT1") (Some 3600) in
  let w' := fst (saveTokens td fresh_world) in
  tokenExpiry (this w') = Some (Time 3301000) /\
  snd (isTokenExpired (at_time 3300999 w')) = Return false /\
  snd (isTokenExpired (at_time 3301000 w')) = Return true.
Proof.
  intros td w'.
  destruct (skew_invariant td fresh_world 3600) as (He & _ & _ & Hs);
    [reflexivity | lia | unfold MAX_TIME; simpl; lia |].
  split; [exact He |].
  destruct (Hs eq_refl 3300999) as [Hbefore _].
  destruct (Hs eq_refl 3301000) as [_ Hafter].
  split; [apply Hbefore; simpl; lia | apply Hafter; simpl; lia].
Defined.

(** C10. When the token response carries no [expires_in] (or a falsy one),
    [saveTokens] takes 3600 seconds instead: the expiry is set 3300 seconds
    after the current time, the token is not expired at that moment, and the
    call succeeds whenever the store accepts the record. *)
Theorem default_ttl (td : TokenData) (w : World) :
  expires_in td = None \/ expires_in td = Some 0 ->
  Z.abs (clock w + 3300 * 1000) <= MAX_TIME ->
  let w' := fst (saveTokens td w) in
  tokenExpiry (this w') = Some (Time (clock w + 3300 * 1000)) /\
  snd (isTokenExpired w') = Return false /\
  (TokenStorage.writable (tokenStorage (this w)) = true ->
   snd (saveTokens td w) = Return tt).
Proof.
  intros Hfalsy Hrange w'.
  assert (Hd : newDate (clock w + (or_number (expires_in td) 3600 - 300) * 1000)
               = Time (clock w + 3300 * 1000)).
  { rewrite (or_number_falsy _ _ Hfalsy).
    replace ((3600 - 300) * 1000) with (3300 * 1000) by reflexivity.
    now apply newDate_in_range. }
  destruct (saveTokens_memory td w) as (_ & _ & He & _ & Hc & _).
  fold w' in He, Hc. rewrite Hd in He.
  repeat split.
  - exact He.
  - rewrite isTokenExpired_eq. cbn. unfold expired_at. rewrite He, Hc. cbn.
    f_equal. apply Z.leb_gt. lia.
  - intros Hw. rewrite saveTokens_eq. cbv zeta. rewrite Hd, Hw. reflexivity.
Qed.

Lemma default_ttl_witness :
  let td := mkTokenData (Some "AT1") (Some "RT1") None in
  tokenExpiry (this (fst (saveTokens td fresh_world))) = Some (Time 3301000) /\
  snd (saveTokens td fresh_world) = Return tt.
Proof.
  intros td.
  destruct (default_ttl td fresh_world) as (He & _ & Hok);
    [left; reflexivity | unfold MAX_TIME; simpl; lia |].
  split; [exact He | apply Hok; reflexivity].
Defined.

(** *** What a refresh overwrites *)

(** C5. [saveTokens] always overwrites the access token and the expiry; it
    keeps the stored refresh token when the response brings none; and what
    it persists is the record it holds in memory.  In the scenario of the
    specification (exchange for AT1/RT1, then a refresh answered with AT2 and
    no refresh token) the record ends as AT2/RT1, in memory and in the
    store. *)
Theorem saveTokens_frame :
  (forall (td : TokenData) (w : World),
     let w' := fst (saveTokens td w) in
     accessToken (this w') = access_token td /\
     tokenExpiry (this w') =
       Some (newDate (clock w + (or_number (expires_in td) 3600 - 300) * 1000)) /\
     (refresh_token td = None -> refreshToken (this w') = refreshToken (this w)) /\
     (snd (saveTokens td w) = Return tt ->
      exists ms,
        tokenExpiry (this w') = Some (Time ms) /\
        TokenStorage.getTokens (tokenStorage (this w')) =
          Some (TokenStorage.mkTokens (access_token td) (refreshToken (this w')) ms))) /\
  (let w1 := fst (handleCallback scenario_env "abc123" fresh_world) in
   let later := at_time (clock w1 + 3300 * 1000 + 1) w1 in
   let w2 := fst (getAccessToken scenario_env later) in
   snd (getAccessToken scenario_env w1) = Return (Some "AT1") /\
   snd (getAccessToken scenario_env later) = Return (Some "AT2") /\
   refresh_requests (trace w2) = 1%nat /\
   accessToken (this w2) = Some "AT2" /\
   refreshToken (this w2) = Some "RT1" /\
   option_map TokenStorage.accessToken (TokenStorage.getTokens (tokenStorage (this w2)))
     = Some (Some "AT2") /\
   option_map TokenStorage.refreshToken (TokenStorage.getTokens (tokenStorage (this w2)))
     = Some (Some "RT1")).
Proof.
  split.
  - intros td w w'.
    destruct (saveTokens_memory td w) as (Ha & Hr & He & _).
    fold w' in Ha, Hr, He.
    repeat split.
    + exact Ha.
    + exact He.
    + intros Hnone. rewrite Hr, Hnone. reflexivity.
    + subst w'. revert He. rewrite saveTokens_eq. cbv zeta.
      destruct (newDate _) as [ms |] eqn:Hd;
        [destruct (TokenStorage.writable _) |]; cbn; intros He Hres;
        try discriminate.
      exists ms. unfold saved. rewrite Hd. split; reflexivity.
  - vm_compute. repeat split; reflexivity.
Qed.

Lemma saveTokens_frame_witness :
  let td := mkTokenData (Some "AT2") None (Some 3600) in
  let w1 := fst (handleCallback scenario_env "abc123" fresh_world) in
  let w' := fst (saveTokens td w1) in
  refreshToken (this w') = Some "RT1" /\
  TokenStorage.getTokens (tokenStorage (this w')) =
    Some (TokenStorage.mkTokens (Some "AT2") (Some "RT1") 3301010).
Proof.
  intros td w1 w'.
  destruct saveTokens_frame as [Hgen _].
  destruct (Hgen td w1) as (_ & _ & Hkeep & Hstore).
  split.
  - exact (Hkeep eq_refl).
  - destruct (Hstore eq_refl) as (ms & Hms & Hget).
    injection Hms as Hms. rewrite <- Hms in Hget. exact Hget.
Defined.

(** *** Refreshing *)

Lemma refreshAccessToken_guard (env : Env) (w : World) :
  truthy_string (refreshToken (this w)) = false ->
  refreshAccessToken env w = (w, Throw (Error "No refresh token available")).
Proof.
  intros H. unfold refreshAccessToken, bind, read. cbn. rewrite H. reflexivity.
Qed.

(** A refresh request that is rejected, for whatever reason, runs the
    [catch] block. *)
Lemma refreshAccessToken_rejected (env : Env) (w : World) (rej : AxiosRejection) :
  truthy_string (refreshToken (this w)) = true ->
  let g := refresh_token_grant (string_value (refreshToken (this w))) in
  outcome (token_endpoint env (length (trace w)) g) = inl rej ->
  refreshAccessToken env w =
  (mkWorld (cleared (this w))
           (clock w + delay (token_endpoint env (length (trace w)) g))
           (trace w ++ [TokenPost g])
           (logs w ++ [mkLog log_debug "Refreshing access token..." None;
                       mkLog log_error "Failed to refresh token:"
                             (Some (error_detail (AxiosError rej)));
                       mkLog log_info "Cleared authentication tokens" None])
           (emitted w ++ ["logout"]),
   Throw (Error "Token refresh failed - please re-authenticate")).
Proof.
  intros Ht g Hout.
  destruct w as [[at0 rt0 ex0 au0 st lg] ck tr lgs em]. cbn in *.
  unfold refreshAccessToken, bind, read, try_catch, logger, axios_post,
    axios_receive, axios_send. cbn.
  rewrite Ht. cbn. fold g. rewrite Hout. cbn.
  rewrite <- !app_assoc. reflexivity.
Qed.

(** A refresh request that is answered goes on with [saveTokens]. *)
Lemma refreshAccessToken_resolved (env : Env) (w : World) (td : TokenData) :
  truthy_string (refreshToken (this w)) = true ->
  let g := refresh_token_grant (string_value (refreshToken (this w))) in
  let r := token_endpoint env (length (trace w)) g in
  outcome r = inr td ->
  Z.abs (clock w + delay r + (or_number (expires_in td) 3600 - 300) * 1000) <= MAX_TIME ->
  TokenStorage.writable (tokenStorage (this w)) = true ->
  let a := saved td (clock w + delay r) (this w) in
  refreshAccessToken env w =
  (mkWorld (set_tokenStorage
              (TokenStorage.mkStore
                 (Some (TokenStorage.mkTokens
                          (accessToken a) (refreshToken a)
                          (clock w + delay r + (or_number (expires_in td) 3600 - 300) * 1000)))
                 true) a)
           (clock w + delay r)
           (trace w ++ [TokenPost g])
           (logs w ++ [mkLog log_debug "Refreshing access token..." None;
                       mkLog log_info "Successfully refreshed access token" None])
           (emitted w ++ ["token_refreshed"]),
   Return true).
Proof.
  intros Ht g r Hout Hrange Hw a.
  destruct w as [[at0 rt0 ex0 au0 [st wr] lg] ck tr lgs em]. cbn in *.
  subst wr a. unfold saved.
  unfold refreshAccessToken, bind, read, try_catch, logger, axios_post,
    axios_receive, axios_send. cbn.
  rewrite Ht. cbn. fold g. fold r. rewrite Hout.
  unfold saveTokens, bind, update, read, Date_now, lift, tokenStorage_saveTokens,
    TokenStorage.saveTokens, emit, ret. cbn.
  rewrite !(newDate_in_range _ Hrange). cbn.
  rewrite <- !app_assoc. reflexivity.
Qed.

(** C6. Without a stored refresh token, [refreshAccessToken] throws
    [Error("No refresh token available")] at once: nothing is sent to the
    provider and nothing changes. *)
Theorem no_refresh_token_fast_failure (env : Env) (w : World) :
  truthy_string (refreshToken (this w)) = false ->
  snd (refreshAccessToken env w) = Throw (Error "No refresh token available") /\
  trace (fst (refreshAccessToken env w)) = trace w /\
  fst (refreshAccessToken env w) = w.
Proof.
  intros H. rewrite (refreshAccessToken_guard env w H). repeat split.
Qed.

Lemma no_refresh_token_fast_failure_witness :
  snd (refreshAccessToken scenario_env fresh_world)
    = Throw (Error "No refresh token available") /\
  trace (fst (refreshAccessToken scenario_env fresh_world)) = [].
Proof.
  destruct (no_refresh_token_fast_failure scenario_env fresh_world) as (Hr & Ht & _);
    [reflexivity |].
  split; [exact Hr | exact Ht].
Defined.

(** C2, as the code has it.  Whatever makes the refresh request fail, a
    network failure or a 5xx answer as much as a revoked grant, the [catch]
    block clears the record in memory and in the store and throws
    [Error("Token refresh failed - please re-authenticate")]; the request
    was sent once. *)
Theorem refresh_failure_clears_record (env : Env) (w : World) (rej : AxiosRejection) :
  truthy_string (refreshToken (this w)) = true ->
  let g := refresh_token_grant (string_value (refreshToken (this w))) in
  outcome (token_endpoint env (length (trace w)) g) = inl rej ->
  let w' := fst (refreshAccessToken env w) in
  this w' = cleared (this w) /\
  TokenStorage.getTokens (tokenStorage (this w')) = None /\
  trace w' = trace w ++ [TokenPost g] /\
  snd (refreshAccessToken env w) =
    Throw (Error "Token refresh failed - please re-authenticate").
Proof.
  intros Ht g Hout w'. subst w'.
  rewrite (refreshAccessToken_rejected env w rej Ht Hout). cbn.
  repeat split.
Qed.

Lemma refresh_failure_clears_record_witness :
  let w' := fst (refreshAccessToken outage_env authenticated_world) in
  accessToken (this w') = None /\
  TokenStorage.getTokens (tokenStorage (this w')) = None /\
  snd (refreshAccessToken outage_env authenticated_world) =
    Throw (Error "Token refresh failed - please re-authenticate").
Proof.
  intros w'.
  destruct (refresh_failure_clears_record outage_env authenticated_world
              (mkAxiosRejection "Request failed with status code 503"
                                (Some (mkHttpError 503 (Some "service_unavailable")))))
    as (Hc & Hs & _ & Hr); [reflexivity | reflexivity |].
  split; [fold w' in Hc; rewrite Hc; reflexivity | split; [exact Hs | exact Hr]].
Defined.

(** C2, as the specification states it, fails: after a 503 from the token
    endpoint the record AT1/RT1 is gone from memory and from the store. *)
Lemma transient_failure_clears_record :
  let w := authenticated_world in
  let w' := fst (refreshAccessToken outage_env w) in
  accessToken (this w) = Some "AT1" /\
  refreshToken (this w) = Some "RT1" /\
  accessToken (this w') = None /\
  refreshToken (this w') = None /\
  TokenStorage.getTokens (tokenStorage (this w')) = None /\
  ~ same_record (this w) (this w').
Proof.
  vm_compute. repeat split; try reflexivity.
  intros (H & _). discriminate H.
Qed.

(** *** Obtaining a valid token *)

Lemma getAccessToken_unauthenticated (env : Env) (w : World) :
  isAuthenticated (this w) = false ->
  getAccessToken env w =
  (w, Throw (Error "Not authenticated - please run with --auth flag to authenticate")).
Proof.
  intros H. unfold getAccessToken, bind, read. cbn. rewrite H. reflexivity.
Qed.

Lemma getAccessToken_valid (env : Env) (w : World) :
  isAuthenticated (this w) = true ->
  expired_at (clock w) (this w) = false ->
  getAccessToken env w = (w, Return (accessToken (this w))).
Proof.
  intros Ha He. unfold getAccessToken, bind, read, isTokenExpired, Date_now. cbn.
  rewrite Ha. cbn. rewrite He. reflexivity.
Qed.

Lemma getAccessToken_expired (env : Env) (w : World) :
  isAuthenticated (this w) = true ->
  expired_at (clock w) (this w) = true ->
  getAccessToken env w =
  match refreshAccessToken env w with
  | (w', Return _) => (w', Return (accessToken (this w')))
  | (w', Throw e) => (w', Throw e)
  end.
Proof.
  intros Ha He. unfold getAccessToken.
  remember (refreshAccessToken env) as refresh eqn:Hrefresh.
  unfold bind, read, isTokenExpired, Date_now. cbn.
  rewrite Ha. cbn. rewrite He.
  destruct (refresh w) as [w' [b | e]]; reflexivity.
Qed.

(** C7. When the provider rejects the refresh (an [invalid_grant] answer in
    particular), the record is cleared: the fields in memory are [null], the
    manager is no longer authenticated and [getTokens] finds nothing.  A
    following [getAccessToken] then throws without touching the network, and
    so would a following refresh. *)
Theorem revocation_clears_state (env : Env) (w : World) (rej : AxiosRejection) :
  truthy_string (refreshToken (this w)) = true ->
  outcome (token_endpoint env (length (trace w))
             (refresh_token_grant (string_value (refreshToken (this w))))) = inl rej ->
  let w1 := fst (refreshAccessToken env w) in
  (accessToken (this w1) = None /\
   refreshToken (this w1) = None /\
   tokenExpiry (this w1) = None /\
   isAuthenticated (this w1) = false /\
   TokenStorage.getTokens (tokenStorage (this w1)) = None) /\
  getAccessToken env w1 =
    (w1, Throw (Error "Not authenticated - please run with --auth flag to authenticate")) /\
  refreshAccessToken env w1 = (w1, Throw (Error "No refresh token available")).
Proof.
  intros Ht Hout w1.
  assert (Hc : this w1 = cleared (this w)).
  { subst w1. now rewrite (refreshAccessToken_rejected env w rej Ht Hout). }
  split; [rewrite Hc; repeat split |].
  split.
  - apply getAccessToken_unauthenticated. now rewrite Hc.
  - apply refreshAccessToken_guard. now rewrite Hc.
Qed.

Lemma revocation_clears_state_witness :
  let w1 := fst (refreshAccessToken revoked_env authenticated_world) in
  TokenStorage.getTokens (tokenStorage (this w1)) = None /\
  trace (fst (getAccessToken revoked_env w1)) = trace w1 /\
  snd (getAccessToken revoked_env w1) =
    Throw (Error "Not authenticated - please run with --auth flag to authenticate").
Proof.
  intros w1.
  destruct (revocation_clears_state revoked_env authenticated_world
              (mkAxiosRejection "Request failed with status code 400"
                                (Some (mkHttpError 400 (Some "invalid_grant")))))
    as ((_ & _ & _ & _ & Hs) & Hg & _); [reflexivity | reflexivity |].
  split; [exact Hs | fold w1 in Hg; rewrite Hg; split; reflexivity].
Defined.

(** C8. [getAccessToken] in its three cases.  Not authenticated: it throws
    [Error("Not authenticated ...")] and nothing else happens.  Authenticated
    with an expired token: [refreshAccessToken] runs first, its failure is
    the failure of the call, and after a successful refresh the access token
    just received is returned.  Authenticated with an unexpired token: the
    stored access token is returned, nothing is sent and nothing changes. *)
Theorem ensure_valid_token (env : Env) (w : World) :
  (isAuthenticated (this w) = false ->
   getAccessToken env w =
   (w, Throw (Error "Not authenticated - please run with --auth flag to authenticate"))) /\
  (isAuthenticated (this w) = true ->
   expired_at (clock w) (this w) = true ->
   getAccessToken env w =
     match refreshAccessToken env w with
     | (w', Return _) => (w', Return (accessToken (this w')))
     | (w', Throw e) => (w', Throw e)
     end /\
   let g := refresh_token_grant (string_value (refreshToken (this w))) in
   let r := token_endpoint env (length (trace w)) g in
   forall td,
     truthy_string (refreshToken (this w)) = true ->
     outcome r = inr td ->
     Z.abs (clock w + delay r + (or_number (expires_in td) 3600 - 300) * 1000) <= MAX_TIME ->
     TokenStorage.writable (tokenStorage (this w)) = true ->
     snd (getAccessToken env w) = Return (access_token td) /\
     trace (fst (getAccessToken env w)) = trace w ++ [TokenPost g]) /\
  (isAuthenticated (this w) = true ->
   expired_at (clock w) (this w) = false ->
   getAccessToken env w = (w, Return (accessToken (this w)))).
Proof.
  split; [apply getAccessToken_unauthenticated |].
  split; [| apply getAccessToken_valid].
  intros Ha He. split; [now apply getAccessToken_expired |].
  intros g r td Ht Hout Hrange Hw.
  rewrite (getAccessToken_expired env w Ha He).
  rewrite (refreshAccessToken_resolved env w td Ht Hout Hrange Hw).
  split; reflexivity.
Qed.

Lemma ensure_valid_token_witness :
  let later := at_time (clock authenticated_world + 3300 * 1000) authenticated_world in
  snd (getAccessToken scenario_env fresh_world) =
    Throw (Error "Not authenticated - please run with --auth flag to authenticate") /\
  (snd (getAccessToken scenario_env later) = Return (Some "AT2") /\
   trace (fst (getAccessToken scenario_env later)) =
     trace later ++ [TokenPost (refresh_token_grant "RT1")]) /\
  getAccessToken scenario_env authenticated_world =
    (authenticated_world, Return (Some "AT1")).
Proof.
  intros later.
  destruct (ensure_valid_token scenario_env fresh_world) as (H1 & _ & _).
  destruct (ensure_valid_token scenario_env later) as (_ & H2 & _).
  destruct (ensure_valid_token scenario_env authenticated_world) as (_ & _ & H3).
  split; [rewrite (H1 eq_refl); reflexivity |].
  split; [| exact (H3 eq_refl eq_refl)].
  destruct (H2 eq_refl eq_refl) as [_ H2'].
  apply (H2' (mkTokenData (Some "AT2") None (Some 3600)));
    [reflexivity | reflexivity | unfold MAX_TIME; vm_compute; discriminate | reflexivity].
Defined.

(** *** The code exchange *)

Lemma handleCallback_rejected (env : Env) (code : string) (w : World) (rej : AxiosRejection) :
  let r := token_endpoint env (length (trace w)) (authorization_code code) in
  outcome r = inl rej ->
  handleCallback env code w =
  (mkWorld (this w) (clock w + delay r)
           (trace w ++ [TokenPost (authorization_code code)])
           (logs w ++ [mkLog log_error "Failed to exchange authorization code:"
                             (Some (error_detail (AxiosError rej)))])
           (emitted w),
   Throw (Error "Authentication failed")).
Proof.
  intros r Hout.
  unfold handleCallback, try_catch, bind, axios_post, axios_receive, axios_send. cbn.
  fold r. rewrite Hout. reflexivity.
Qed.

Lemma handleCallback_resolved (env : Env) (code : string) (w : World) (td : TokenData) :
  let r := token_endpoint env (length (trace w)) (authorization_code code) in
  outcome r = inr td ->
  Z.abs (clock w + delay r + (or_number (expires_in td) 3600 - 300) * 1000) <= MAX_TIME ->
  TokenStorage.writable (tokenStorage (this w)) = true ->
  let a := saved td (clock w + delay r) (this w) in
  handleCallback env code w =
  (mkWorld (set_tokenStorage
              (TokenStorage.mkStore
                 (Some (TokenStorage.mkTokens
                          (accessToken a) (refreshToken a)
                          (clock w + delay r + (or_number (expires_in td) 3600 - 300) * 1000)))
                 true) a)
           (clock w + delay r)
           (trace w ++ [TokenPost (authorization_code code)])
           (logs w ++ [mkLog log_info "Successfully authenticated with Autodesk" None])
           (emitted w ++ ["authenticated"]),
   Return true).
Proof.
  intros r Hout Hrange Hw a.
  destruct w as [[at0 rt0 ex0 au0 [st wr] lg] ck tr lgs em]. cbn in *.
  subst wr a. unfold saved.
  unfold handleCallback, try_catch, bind, axios_post, axios_receive, axios_send. cbn.
  fold r. rewrite Hout.
  unfold saveTokens, bind, update, read, Date_now, lift, tokenStorage_saveTokens,
    TokenStorage.saveTokens, emit, logger, ret. cbn.
  rewrite !(newDate_in_range _ Hrange). cbn. reflexivity.
Qed.

(** C9, as the code has it.  When the provider rejects the code exchange,
    [handleCallback] throws the fixed [Error("Authentication failed")]; the
    provider's payload goes to the log only.  No field of the manager is
    written and nothing is persisted, so an unauthenticated manager stays
    unauthenticated.  When the provider answers (and the record can be
    stored) the tokens are held in memory and in the store, the manager is
    authenticated and the event [authenticated] is emitted. *)
Theorem exchange_code (env : Env) (code : string) (w : World) :
  let r := token_endpoint env (length (trace w)) (authorization_code code) in
  let w' := fst (handleCallback env code w) in
  (forall rej,
     outcome r = inl rej ->
     snd (handleCallback env code w) = Throw (Error "Authentication failed") /\
     this w' = this w /\
     logs w' = logs w ++ [mkLog log_error "Failed to exchange authorization code:"
                                (Some (error_detail (AxiosError rej)))] /\
     emitted w' = emitted w) /\
  (forall td,
     outcome r = inr td ->
     Z.abs (clock w + delay r + (or_number (expires_in td) 3600 - 300) * 1000) <= MAX_TIME ->
     TokenStorage.writable (tokenStorage (this w)) = true ->
     snd (handleCallback env code w) = Return true /\
     isAuthenticated (this w') = true /\
     accessToken (this w') = access_token td /\
     refreshToken (this w') = or_string (refresh_token td) (refreshToken (this w)) /\
     tokenExpiry (this w') =
       Some (Time (clock w + delay r + (or_number (expires_in td) 3600 - 300) * 1000)) /\
     TokenStorage.getTokens (tokenStorage (this w')) =
       Some (TokenStorage.mkTokens
               (access_token td)
               (or_string (refresh_token td) (refreshToken (this w)))
               (clock w + delay r + (or_number (expires_in td) 3600 - 300) * 1000)) /\
     emitted w' = emitted w ++ ["authenticated"]).
Proof.
  intros r w'. split.
  - intros rej Hout. subst w'.
    rewrite (handleCallback_rejected env code w rej Hout). cbn. repeat split.
  - intros td Hout Hrange Hw. subst w'.
    rewrite (handleCallback_resolved env code w td Hout Hrange Hw). cbn.
    unfold saved. cbn. fold r.
    rewrite (newDate_in_range _ Hrange). repeat split.
Qed.

Lemma exchange_code_witness :
  (let w' := fst (handleCallback revoked_env "abc123" fresh_world) in
   snd (handleCallback revoked_env "abc123" fresh_world)
     = Throw (Error "Authentication failed") /\
   isAuthenticated (this w') = false /\
   TokenStorage.getTokens (tokenStorage (this w')) = None) /\
  (let w' := fst (handleCallback scenario_env "abc123" fresh_world) in
   snd (handleCallback scenario_env "abc123" fresh_world) = Return true /\
   isAuthenticated (this w') = true /\
   TokenStorage.getTokens (tokenStorage (this w')) =
     Some (TokenStorage.mkTokens (Some "AT1") (Some "RT1") 3301010)).
Proof.
  split.
  - intros w'.
    destruct (exchange_code revoked_env "abc123" fresh_world) as [Hrej _].
    destruct (Hrej (mkAxiosRejection "Request failed with status code 400"
                                     (Some (mkHttpError 400 (Some "invalid_grant"))))
                   eq_refl) as (Hr & Hthis & _).
    fold w' in Hthis.
    split; [exact Hr | rewrite Hthis; split; reflexivity].
  - intros w'.
    destruct (exchange_code scenario_env "abc123" fresh_world) as [_ Hok].
    destruct (Hok (mkTokenData (Some "AT1") (Some "RT1") (Some 3600)) eq_refl)
      as (Hr & Ha & _ & _ & _ & Hs & _);
      [unfold MAX_TIME; vm_compute; discriminate | reflexivity |].
    split; [exact Hr | split; [exact Ha | exact Hs]].
Defined.

(** C9, as the specification states it, fails: the provider rejects the
    exchange with the payload [invalid_grant], and the error that reaches
    the caller carries no payload at all. *)
Lemma exchange_error_drops_payload :
  let r := token_endpoint revoked_env 0 (authorization_code "abc123") in
  let result := snd (handleCallback revoked_env "abc123" fresh_world) in
  (exists rej, outcome r = inl rej /\
               error_payload (AxiosError rej) = Some "invalid_grant") /\
  result = Throw (Error "Authentication failed") /\
  ~ (exists e, result = Throw e /\ error_payload e = Some "invalid_grant").
Proof.
  split; [| split].
  - eexists. split; reflexivity.
  - reflexivity.
  - intros (e & He & Hp). vm_compute in He. injection He as He. subst e.
    discriminate Hp.
Qed.

(** *** Counting the requests a method sends *)

Lemma api_requests_app (l1 l2 : list NetCall) :
  api_requests (l1 ++ l2) = (api_requests l1 + api_requests l2)%nat.
Proof. unfold api_requests. now rewrite filter_app, length_app. Qed.

Lemma refresh_requests_app (l1 l2 : list NetCall) :
  refresh_requests (l1 ++ l2) = (refresh_requests l1 + refresh_requests l2)%nat.
Proof. unfold refresh_requests. now rewrite filter_app, length_app. Qed.

Ltac silent :=
  intros ?w; unfold ret, throw, read, update, logger, emit, Date_now;
  cbn [fst trace]; split; lia.

Lemma Sends_weaken {A} (na nr na' nr' : nat) (m : Async A) :
  Sends na nr m -> (na <= na')%nat -> (nr <= nr')%nat -> Sends na' nr' m.
Proof. intros H Ha Hr w. destruct (H w). split; lia. Qed.

Lemma Sends_ret {A} (a : A) : Sends 0 0 (ret a).
Proof. silent. Qed.

Lemma Sends_throw {A} (e : JsError) : Sends 0 0 (@throw A e).
Proof. silent. Qed.

Lemma Sends_read {A} (f : AuthManager -> A) : Sends 0 0 (read f).
Proof. silent. Qed.

Lemma Sends_update (f : AuthManager -> AuthManager) : Sends 0 0 (update f).
Proof. silent. Qed.

Lemma Sends_logger (l : Level) (msg : string) (d : option string) :
  Sends 0 0 (logger l msg d).
Proof. silent. Qed.

Lemma Sends_emit (event : string) : Sends 0 0 (emit event).
Proof. silent. Qed.

Lemma Sends_Date_now : Sends 0 0 Date_now.
Proof. silent. Qed.

Lemma Sends_bind {A B} (na nr na' nr' : nat) (m : Async A) (k : A -> Async B) :
  Sends na nr m -> (forall a, Sends na' nr' (k a)) ->
  Sends (na + na') (nr + nr') (bind m k).
Proof.
  intros Hm Hk w. unfold bind. specialize (Hm w).
  destruct (m w) as [w1 [a | e]]; cbn [fst] in *.
  - specialize (Hk a w1). destruct Hm, Hk. split; lia.
  - destruct Hm. split; lia.
Qed.

Lemma Sends_then {A B} (na nr : nat) (m : Async A) (k : A -> Async B) :
  Sends 0 0 m -> (forall a, Sends na nr (k a)) -> Sends na nr (bind m k).
Proof. intros Hm Hk. now apply (Sends_bind 0 0 na nr). Qed.

Lemma Sends_try_catch {A} (na nr na' nr' : nat) (m : Async A) (h : JsError -> Async A) :
  Sends na nr m -> (forall e, Sends na' nr' (h e)) ->
  Sends (na + na') (nr + nr') (try_catch m h).
Proof.
  intros Hm Hh w. unfold try_catch. specialize (Hm w).
  destruct (m w) as [w1 [a | e]]; cbn [fst] in *.
  - destruct Hm. split; lia.
  - specialize (Hh e w1). destruct Hm, Hh. split; lia.
Qed.

Lemma Sends_if {A} (na nr : nat) (b : bool) (m1 m2 : Async A) :
  Sends na nr m1 -> Sends na nr m2 -> Sends na nr (if b then m1 else m2).
Proof. destruct b; auto. Qed.

Lemma Sends_axios_post (env : Env) (g : Grant) : Sends 0 1 (axios_post env g).
Proof.
  intros w. unfold axios_post, axios_receive, axios_send.
  destruct (outcome _); cbn [fst trace];
    rewrite api_requests_app, refresh_requests_app; destruct g; cbn; split; lia.
Qed.

Lemma Sends_axios (env : Env) (o : Options) (h : AuthHeader) : Sends 1 0 (axios env o h).
Proof.
  intros w. unfold axios, axios_receive, axios_send.
  destruct (outcome _); cbn [fst trace];
    rewrite api_requests_app, refresh_requests_app; cbn; split; lia.
Qed.

Lemma Sends_saveTokens (td : TokenData) : Sends 0 0 (saveTokens td).
Proof.
  intros w. rewrite saveTokens_eq. cbv zeta.
  destruct (newDate _); [destruct (TokenStorage.writable _) |];
    unfold with_this; cbn [fst trace]; split; lia.
Qed.

Lemma Sends_clearTokens : Sends 0 0 clearTokens.
Proof. intros w. rewrite clearTokens_eq. cbn [fst trace]. split; lia. Qed.

Lemma Sends_isTokenExpired : Sends 0 0 isTokenExpired.
Proof. intros w. rewrite isTokenExpired_eq. cbn [fst]. split; lia. Qed.

Create HintDb sends.
#[local] Hint Resolve Sends_ret Sends_throw Sends_read Sends_update Sends_logger
  Sends_emit Sends_Date_now Sends_axios_post Sends_axios Sends_saveTokens
  Sends_clearTokens Sends_isTokenExpired : sends.

(** A run of statements that send nothing. *)
Ltac quiet := repeat (apply Sends_then; [auto with sends | intros ?]); auto with sends.

Lemma Sends_refreshAccessToken (env : Env) : Sends 0 1 (refreshAccessToken env).
Proof.
  unfold refreshAccessToken.
  apply Sends_then; [auto with sends | intros rt].
  apply Sends_if; [apply (Sends_weaken 0 0); [apply Sends_throw | lia | lia] |].
  apply (Sends_try_catch 0 1 0 0).
  - apply Sends_then; [auto with sends | intros _].
    apply (Sends_bind 0 1 0 0); [auto with sends | intros td]. quiet.
  - intros e. quiet.
Qed.

Lemma Sends_getAccessToken (env : Env) : Sends 0 1 (getAccessToken env).
Proof.
  unfold getAccessToken.
  apply Sends_then; [auto with sends | intros authenticated].
  apply Sends_if; [apply (Sends_weaken 0 0); [apply Sends_throw | lia | lia] |].
  apply Sends_then; [auto with sends | intros expired].
  apply (Sends_bind 0 1 0 0); [| intros _; auto with sends].
  apply Sends_if; [| apply (Sends_weaken 0 0); [apply Sends_ret | lia | lia]].
  apply (Sends_bind 0 1 0 0); [apply Sends_refreshAccessToken | intros _; auto with sends].
Qed.

Lemma Sends_getAuthHeaders (env : Env) : Sends 0 1 (getAuthHeaders env).
Proof.
  unfold getAuthHeaders.
  apply (Sends_bind 0 1 0 0); [apply Sends_getAccessToken | intros t; auto with sends].
Qed.

Lemma Sends_log_api (msg : string) : Sends 0 0 (log_api msg).
Proof.
  unfold log_api. apply Sends_then; [auto with sends | intros b].
  apply Sends_if; auto with sends.
Qed.

#[local] Hint Resolve Sends_refreshAccessToken Sends_getAuthHeaders Sends_log_api : sends.

Lemma Sends_makeAuthenticatedRequest (env : Env) (options : Options) :
  Sends 2 3 (makeAuthenticatedRequest env options).
Proof.
  unfold makeAuthenticatedRequest.
  apply (Sends_bind 0 1 2 2); [auto with sends | intros headers].
  apply (Sends_try_catch 1 0 1 2).
  - apply Sends_then; [auto with sends | intros _].
    apply (Sends_bind 1 0 0 0); [auto with sends | intros response]. quiet.
  - intros err.
    apply Sends_if; [| apply (Sends_weaken 0 0); [apply Sends_throw | lia | lia]].
    apply Sends_then; [auto with sends | intros _].
    apply (Sends_bind 0 1 1 1); [auto with sends | intros _].
    apply (Sends_bind 0 1 1 0); [auto with sends | intros newHeaders; auto with sends].
Qed.

(** *** The authenticated request *)

Lemma getAuthHeaders_valid (env : Env) (w : World) :
  isAuthenticated (this w) = true ->
  expired_at (clock w) (this w) = false ->
  getAuthHeaders env w = (w, Return (Bearer (accessToken (this w)))).
Proof.
  intros Ha He. unfold getAuthHeaders, bind.
  rewrite (getAccessToken_valid env w Ha He). reflexivity.
Qed.

Lemma log_api_eq (msg : string) (w : World) :
  exists lg,
    log_api msg w = (mkWorld (this w) (clock w) (trace w) lg (emitted w), Return tt).
Proof.
  destruct w as [a ck tr lgs em]. unfold log_api, bind, read, logger, ret. cbn.
  destruct (logApiCalls a); eexists; reflexivity.
Qed.

(** C3, as the code has it.  [makeAuthenticatedRequest] never hands more
    than two API requests (and three refresh requests) to [axios].  When the
    first attempt is answered with 401 and the forced refresh brings a token
    [td] that is not already expired (a lifetime above 300 seconds) and can
    be stored, the requests sent after the first [getAuthHeaders] are
    exactly: the first attempt, one refresh, one retry; the retry carries the
    new access token unless the caller's options bring their own
    [Authorization] header.  Whatever the retry yields is the result of the
    call: its response, or its rejection (a second 401 included)
    unchanged. *)
Theorem retry_once_on_401 :
  (forall (env : Env) (options : Options) (w : World),
     let w' := fst (makeAuthenticatedRequest env options w) in
     (api_requests (trace w') <= api_requests (trace w) + 2)%nat /\
     (refresh_requests (trace w') <= refresh_requests (trace w) + 3)%nat) /\
  (forall (env : Env) (options : Options) (w w1 : World) (headers : AuthHeader)
          (rej : AxiosRejection) (td : TokenData),
     getAuthHeaders env w = (w1, Return headers) ->
     let first :=
       api_endpoint env (length (trace w1)) options (merge_headers headers options) in
     outcome first = inl rej ->
     is_401 (AxiosError rej) = true ->
     let rt := refreshToken (this w1) in
     truthy_string rt = true ->
     let g := refresh_token_grant (string_value rt) in
     let second := token_endpoint env (S (length (trace w1))) g in
     outcome second = inr td ->
     let now := clock w1 + delay first + delay second in
     300 < or_number (expires_in td) 3600 ->
     Z.abs (now + (or_number (expires_in td) 3600 - 300) * 1000) <= MAX_TIME ->
     TokenStorage.writable (tokenStorage (this w1)) = true ->
     let retry_headers := merge_headers (Bearer (access_token td)) options in
     let third := api_endpoint env (S (S (length (trace w1)))) options retry_headers in
     let w' := fst (makeAuthenticatedRequest env options w) in
     trace w' = trace w1 ++ [ApiCall options (merge_headers headers options);
                             TokenPost g;
                             ApiCall options retry_headers] /\
     snd (makeAuthenticatedRequest env options w) =
       match outcome third with
       | inl rej2 => Throw (AxiosError rej2)
       | inr resp => Return resp
       end).
Proof.
  split; [intros env options w; apply Sends_makeAuthenticatedRequest |].
  intros env options w w1 headers rej td H1 first Hfirst H401 rt Hrt g second Hsecond
         now Hfresh Hrange Hw retry_headers third w'.
  destruct (log_api_eq "API Request:" w1) as [lg1 Hlog1].
  set (w2 := mkWorld (this w1) (clock w1 + delay first)
                     (trace w1 ++ [ApiCall options (merge_headers headers options)])
                     (lg1 ++ [mkLog log_debug "Token expired, attempting refresh..." None])
                     (emitted w1)).
  assert (Hlen : length (trace w2) = S (length (trace w1))).
  { subst w2. cbn. rewrite length_app. cbn. lia. }
  pose proof (refreshAccessToken_resolved env w2 td Hrt) as Hr.
  cbv zeta in Hr. rewrite Hlen in Hr. specialize (Hr Hsecond Hrange Hw).
  cbn [this clock trace logs emitted w2] in Hr. fold rt g second now in Hr.
  remember (refreshAccessToken env w2) as refreshed eqn:Hrefreshed.
  assert (Heq : makeAuthenticatedRequest env options w =
                axios env options retry_headers (fst refreshed)).
  { unfold makeAuthenticatedRequest.
    unfold bind at 1. rewrite H1.
    unfold try_catch.
    unfold bind at 1. rewrite Hlog1.
    unfold bind at 1. unfold axios at 1, axios_receive, axios_send.
    cbn [this clock trace logs emitted].
    fold first. rewrite Hfirst. rewrite H401.
    unfold bind at 1. unfold logger at 1. cbn [this clock trace logs emitted].
    fold w2. unfold bind at 1. rewrite <- Hrefreshed, Hr.
    unfold bind at 1. rewrite getAuthHeaders_valid.
    - reflexivity.
    - reflexivity.
    - cbn [this clock]. unfold expired_at, set_tokenStorage, saved. cbn [tokenExpiry].
      rewrite (newDate_in_range _ Hrange). cbn [Date_ge].
      apply Z.leb_gt. lia. }
  subst w'. rewrite Heq, Hr.
  unfold axios, axios_receive, axios_send. cbn [this clock trace logs emitted fst snd].
  rewrite !length_app. cbn [length Nat.add].
  replace (length (trace w1) + 1 + 1)%nat with (S (S (length (trace w1)))) by lia.
  fold third.
  rewrite <- !app_assoc. cbn [app].
  destruct (outcome third); split; reflexivity.
Qed.

Lemma retry_once_on_401_witness :
  (let w' := fst (makeAuthenticatedRequest stale_env list_issues authenticated_world) in
   trace w' = trace authenticated_world ++
              [ApiCall list_issues (Bearer (Some "AT1"));
               TokenPost (refresh_token_grant "RT1");
               ApiCall list_issues (Bearer (Some "AT2"))] /\
   snd (makeAuthenticatedRequest stale_env list_issues authenticated_world) =
     Return (mkApiResponse 200 "ok")) /\
  (let w' := fst (makeAuthenticatedRequest locked_env list_issues authenticated_world) in
   trace w' = trace authenticated_world ++
              [ApiCall list_issues (Bearer (Some "AT1"));
               TokenPost (refresh_token_grant "RT1");
               ApiCall list_issues (Bearer (Some "AT2"))] /\
   snd (makeAuthenticatedRequest locked_env list_issues authenticated_world) =
     Throw (AxiosError unauthorized)).
Proof.
  destruct retry_once_on_401 as [_ Hexact].
  split.
  - apply (Hexact stale_env list_issues authenticated_world authenticated_world
                  (Bearer (Some "AT1")) unauthorized
                  (mkTokenData (Some "AT2") None (Some 3600)));
      try reflexivity.
    unfold MAX_TIME. vm_compute. discriminate.
  - apply (Hexact locked_env list_issues authenticated_world authenticated_world
                  (Bearer (Some "AT1")) unauthorized
                  (mkTokenData (Some "AT2") None (Some 3600)));
      try reflexivity.
    unfold MAX_TIME. vm_compute. discriminate.
Defined.

(** C3, as the specification states it, fails.  A refreshed token that lives
    two minutes is expired on arrival, so [getAuthHeaders] refreshes once
    more before the retry: two refresh requests after one 401.  And when the
    caller's options bring an [Authorization] header, the retry carries that
    header, not the new token. *)
Lemma retry_refreshes_twice_or_keeps_header :
  let short := fst (makeAuthenticatedRequest short_stale_env list_issues authenticated_world) in
  let signed := fst (makeAuthenticatedRequest locked_env signed_request authenticated_world) in
  trace short = trace authenticated_world ++
                [ApiCall list_issues (Bearer (Some "AT1"));
                 TokenPost (refresh_token_grant "RT1");
                 TokenPost (refresh_token_grant "RT1");
                 ApiCall list_issues (Bearer (Some "AT2"))] /\
  ~ one_refresh_one_retry short_stale_env list_issues authenticated_world /\
  trace signed = trace authenticated_world ++
                 [ApiCall signed_request (Custom "Basic abc");
                  TokenPost (refresh_token_grant "RT1");
                  ApiCall signed_request (Custom "Basic abc")] /\
  accessToken (this signed) = Some "AT2" /\
  ~ one_refresh_one_retry locked_env signed_request authenticated_world.
Proof.
  repeat split; try reflexivity.
  - intros (h & rt & H). vm_compute in H. congruence.
  - intros (h & rt & H). vm_compute in H. congruence.
Qed.

(** *** Several callers at once *)

Section ConcurrentCallers.

Variable env : Env.

(** A single caller, woken up as soon as it can go on, does what the
    method does when it runs alone. *)
Lemma getAccessToken_alone (w : World) :
  (let (w1, t1) := getAccessToken_call w in
   let (w2, t2) := resume env t1 w1 in
   resume env t2 w2) =
  (let (w', c) := getAccessToken env w in (w', Settled c)).
Proof.
  destruct w as [[at0 rt0 ex0 au0 [st wr] lg] ck tr lgs em].
  unfold getAccessToken_call, getAccessToken, bind, read, isTokenExpired, Date_now. cbn.
  destruct au0; cbn; [| reflexivity].
  destruct (expired_at ck _) eqn:He; cbn; [| reflexivity].
  unfold refreshAccessToken, bind, read. cbn.
  destruct (truthy_string rt0) eqn:Ht; cbn; [| reflexivity].
  unfold on_response, try_catch, bind, logger, axios_post, axios_receive, axios_send. cbn.
  destruct (outcome _) as [rej | td]; cbn; [reflexivity |].
  unfold saveTokens, bind, update, read, Date_now, lift, tokenStorage_saveTokens,
    TokenStorage.saveTokens, emit, logger, ret. cbn.
  destruct (newDate _); cbn; [destruct wr |]; reflexivity.
Qed.

(** Waking a caller up never sends anything. *)
Lemma resume_trace (t : Task) (w : World) : trace (fst (resume env t w)) = trace w.
Proof.
  destruct t as [n g | | c]; cbn [resume].
  - unfold on_response, try_catch, bind, axios_receive.
    destruct (outcome (token_endpoint env n g)) as [rej | td].
    + reflexivity.
    + rewrite saveTokens_eq. cbv zeta.
      destruct (newDate _); [destruct (TokenStorage.writable _) |]; reflexivity.
  - reflexivity.
  - reflexivity.
Qed.

Lemma step_trace (i : nat) (cfg : World * list Task) :
  trace (fst (step env i cfg)) = trace (fst cfg).
Proof.
  unfold step. destruct (nth_error (snd cfg) i) as [t |]; [| reflexivity].
  pose proof (resume_trace t (fst cfg)) as H.
  destruct (resume env t (fst cfg)) as [w' t']. exact H.
Qed.

Lemma run_trace (schedule : list nat) :
  forall cfg, trace (fst (run env schedule cfg)) = trace (fst cfg).
Proof.
  induction schedule as [| i rest IH]; intros cfg; [reflexivity |].
  cbn [run fold_left]. fold (run env rest (step env i cfg)).
  rewrite IH. apply step_trace.
Qed.

End ConcurrentCallers.

Lemma getAccessToken_call_expired (w : World) :
  isAuthenticated (this w) = true ->
  expired_at (clock w) (this w) = true ->
  truthy_string (refreshToken (this w)) = true ->
  let g := refresh_token_grant (string_value (refreshToken (this w))) in
  getAccessToken_call w =
  (mkWorld (this w) (clock w) (trace w ++ [TokenPost g])
           (logs w ++ [mkLog log_debug "Refreshing access token..." None]) (emitted w),
   AwaitingAxios (length (trace w)) g).
Proof.
  intros Ha He Ht g. unfold getAccessToken_call. rewrite Ha, He, Ht. reflexivity.
Qed.

(** Callers started in one turn all see the same expired record: none of
    them changes it, each of them sends its request. *)
Lemma spawn_expired (n : nat) :
  forall w,
    isAuthenticated (this w) = true ->
    expired_at (clock w) (this w) = true ->
    truthy_string (refreshToken (this w)) = true ->
    let g := refresh_token_grant (string_value (refreshToken (this w))) in
    this (fst (spawn n w)) = this w /\
    clock (fst (spawn n w)) = clock w /\
    trace (fst (spawn n w)) = trace w ++ repeat (TokenPost g) n /\
    snd (spawn n w) = map (fun i => AwaitingAxios (length (trace w) + i) g) (seq 0 n).
Proof.
  induction n as [| k IH]; intros w Ha He Ht g.
  - cbn. rewrite app_nil_r. repeat split.
  - cbn [spawn]. rewrite (getAccessToken_call_expired w Ha He Ht). fold g.
    set (w1 := mkWorld _ _ _ _ _).
    destruct (IH w1 Ha He Ht) as (Hthis & Hclock & Htrace & Htasks).
    destruct (spawn k w1) as [w2 ts]. cbn [fst snd] in *.
    repeat split.
    + exact Hthis.
    + exact Hclock.
    + rewrite Htrace. subst w1. cbn [trace this]. fold g.
      rewrite <- app_assoc. reflexivity.
    + rewrite Htasks. subst w1. cbn [trace this seq map]. fold g.
      rewrite Nat.add_0_r. f_equal.
      rewrite <- seq_shift, map_map. apply map_ext. intros i.
      rewrite length_app. cbn [length]. f_equal. lia.
Qed.

Lemma refresh_requests_repeat (rt : string) (n : nat) :
  refresh_requests (repeat (TokenPost (refresh_token_grant rt)) n) = n.
Proof.
  unfold refresh_requests. induction n as [| k IH]; [reflexivity |].
  cbn. now rewrite IH.
Qed.

(** C1, as the code has it.  With an expired token and a stored refresh
    token, [n] callers of [getAccessToken] started together send [n] refresh
    requests, one each and all with the same refresh token; every caller
    waits for the answer to its own request, and in whatever order the
    callers are woken up no further request is sent. *)
Theorem every_caller_refreshes (env : Env) (w : World) (n : nat) (schedule : list nat) :
  isAuthenticated (this w) = true ->
  expired_at (clock w) (this w) = true ->
  truthy_string (refreshToken (this w)) = true ->
  let g := refresh_token_grant (string_value (refreshToken (this w))) in
  let final := fst (run env schedule (spawn n w)) in
  snd (spawn n w) = map (fun i => AwaitingAxios (length (trace w) + i) g) (seq 0 n) /\
  trace final = trace w ++ repeat (TokenPost g) n /\
  refresh_requests (trace final) = (refresh_requests (trace w) + n)%nat.
Proof.
  intros Ha He Ht g final.
  destruct (spawn_expired n w Ha He Ht) as (_ & _ & Htrace & Htasks). fold g in Htrace, Htasks.
  assert (Hfinal : trace final = trace w ++ repeat (TokenPost g) n).
  { subst final. rewrite run_trace. exact Htrace. }
  repeat split.
  - exact Htasks.
  - exact Hfinal.
  - rewrite Hfinal, refresh_requests_app. subst g.
    now rewrite refresh_requests_repeat.
Qed.

Lemma every_caller_refreshes_witness :
  let final := fst (run racing_env [0; 1; 0; 1]%nat (spawn 2 expired_world)) in
  trace final = trace expired_world ++
                [TokenPost (refresh_token_grant "RT1");
                 TokenPost (refresh_token_grant "RT1")] /\
  refresh_requests (trace final) = 2%nat.
Proof.
  intros final.
  destruct (every_caller_refreshes racing_env expired_world 2 [0; 1; 0; 1]%nat)
    as (_ & Htrace & Hcount); [reflexivity | reflexivity | reflexivity |].
  split; [exact Htrace | exact Hcount].
Defined.

(** C1, as the specification states it, fails: two callers that find the
    token expired send two refresh requests, and when the provider answers
    them with different tokens the callers end up with different tokens. *)
Lemma concurrent_callers_each_refresh :
  let cfg := run racing_env [0; 0; 1; 1]%nat (spawn 2 expired_world) in
  refresh_requests (trace expired_world) = 0%nat /\
  refresh_requests (trace (fst cfg)) = 2%nat /\
  snd cfg = [Settled (Return (Some "AT2")); Settled (Return (Some "AT3"))] /\
  ~ coalesced racing_env expired_world 2 [0; 0; 1; 1]%nat.
Proof.
  repeat split; try reflexivity.
  intros [Hcount _]. vm_compute in Hcount. discriminate Hcount.
Qed.

(** ** The rest of the class *)

Lemma newDate_inv (t ms : Z) : newDate t = Time ms -> ms = t /\ Z.abs t <= MAX_TIME.
Proof.
  unfold newDate. destruct (Z.leb_spec (Z.abs t) MAX_TIME) as [Hle | Hgt]; [| discriminate].
  intros Heq. injection Heq as <-. split; [reflexivity | assumption].
Qed.

Lemma loadTokens_never_throws env w : snd (loadTokens env w) = Return tt.
Proof.
  unfold loadTokens, try_catch.
  match goal with |- context [match ?b w with _ => _ end] => destruct (b w) as [w1 [[] | e]] end;
    reflexivity.
Qed.

Lemma loadTokens_empty env w :
  TokenStorage.getTokens (tokenStorage (this w)) = None ->
  loadTokens env w = (w, Return tt).
Proof.
  intros H. unfold loadTokens, try_catch, bind, tokenStorage_getTokens, read. cbn.
  rewrite H. reflexivity.
Qed.

Lemma loadTokens_stored env w r :
  TokenStorage.getTokens (tokenStorage (this w)) = Some r ->
  let w1 := mkWorld (loaded r (this w)) (clock w) (trace w)
                    (logs w ++ [mkLog log_info "Loaded existing authentication tokens" None])
                    (emitted w) in
  loadTokens env w =
  if expired_at (clock w) (loaded r (this w))
  then match refreshAccessToken env w1 with
       | (w2, Return _) => (w2, Return tt)
       | (w2, Throw _) =>
           (mkWorld (this w2) (clock w2) (trace w2)
                    (logs w2 ++ [mkLog log_debug "No existing tokens found" None])
                    (emitted w2), Return tt)
       end
  else (w1, Return tt).
Proof.
  destruct w as [[at0 rt0 ex0 au0 st lg] ck tr lgs em]. cbn [this tokenStorage].
  intros H. cbv zeta. unfold loadTokens.
  remember (refreshAccessToken env) as refresh eqn:Hr.
  unfold try_catch, bind, tokenStorage_getTokens, read. cbn.
  rewrite H.
  unfold update, logger, isTokenExpired, bind, Date_now, read. cbn.
  unfold expired_at, loaded, ret, set_isAuthenticated, set_tokenExpiry, set_refreshToken,
    set_accessToken. cbn.
  destruct (newDate _) as [ms |]; [destruct (ms <=? ck) |]; try reflexivity.
  match goal with |- context [refresh ?x] => destruct (refresh x) as [w2 [b | e]] end;
    reflexivity.
Qed.

Section EmitsFacts.
Variable P : NetCall -> Prop.

Lemma EmitsN_weaken {A} (k k' : nat) (m : Async A) :
  EmitsN k P m -> (k <= k')%nat -> EmitsN k' P m.
Proof. intros H Hk w. destruct (H w) as (l & H1 & H2 & H3). exists l. repeat split; auto; lia. Qed.

Lemma EmitsN_silent {A} (m : Async A) :
  (forall w, trace (fst (m w)) = trace w) -> EmitsN 0 P m.
Proof. intros H w. exists []. rewrite app_nil_r. repeat split; auto. Qed.

Lemma EmitsN_bind {A B} (k k' : nat) (m : Async A) (f : A -> Async B) :
  EmitsN k P m -> (forall a, EmitsN k' P (f a)) -> EmitsN (k + k') P (bind m f).
Proof.
  intros Hm Hf w. unfold bind. destruct (Hm w) as (l & H1 & H2 & H3).
  destruct (m w) as [w1 [a | e]]; cbn [fst] in *.
  - destruct (Hf a w1) as (l' & H1' & H2' & H3').
    exists (l ++ l'). rewrite H1', H1, app_assoc. repeat split; auto.
    + apply Forall_app; auto.
    + rewrite length_app. lia.
  - exists l. repeat split; auto. lia.
Qed.

Lemma EmitsN_then {A B} (k : nat) (m : Async A) (f : A -> Async B) :
  EmitsN 0 P m -> (forall a, EmitsN k P (f a)) -> EmitsN k P (bind m f).
Proof. intros Hm Hf. now apply (EmitsN_bind 0 k). Qed.

Lemma EmitsN_try_catch {A} (k k' : nat) (m : Async A) (h : JsError -> Async A) :
  EmitsN k P m -> (forall e, EmitsN k' P (h e)) -> EmitsN (k + k') P (try_catch m h).
Proof.
  intros Hm Hh w. unfold try_catch. destruct (Hm w) as (l & H1 & H2 & H3).
  destruct (m w) as [w1 [a | e]]; cbn [fst] in *.
  - exists l. repeat split; auto. lia.
  - destruct (Hh e w1) as (l' & H1' & H2' & H3').
    exists (l ++ l'). rewrite H1', H1, app_assoc. repeat split; auto.
    + apply Forall_app; auto.
    + rewrite length_app. lia.
Qed.

Lemma EmitsN_if {A} (k : nat) (b : bool) (m1 m2 : Async A) :
  EmitsN k P m1 -> EmitsN k P m2 -> EmitsN k P (if b then m1 else m2).
Proof. destruct b; auto. Qed.

Lemma EmitsN_ret {A} (a : A) : EmitsN 0 P (ret a).
Proof. now apply EmitsN_silent. Qed.
Lemma EmitsN_throw {A} (e : JsError) : EmitsN 0 P (@throw A e).
Proof. now apply EmitsN_silent. Qed.
Lemma EmitsN_read {A} (f : AuthManager -> A) : EmitsN 0 P (read f).
Proof. now apply EmitsN_silent. Qed.
Lemma EmitsN_update (f : AuthManager -> AuthManager) : EmitsN 0 P (update f).
Proof. now apply EmitsN_silent. Qed.
Lemma EmitsN_logger (l : Level) (msg : string) (d : option string) : EmitsN 0 P (logger l msg d).
Proof. now apply EmitsN_silent. Qed.
Lemma EmitsN_emit (event : string) : EmitsN 0 P (emit event).
Proof. now apply EmitsN_silent. Qed.
Lemma EmitsN_isTokenExpired : EmitsN 0 P isTokenExpired.
Proof. now apply EmitsN_silent. Qed.
Lemma EmitsN_getTokens : EmitsN 0 P tokenStorage_getTokens.
Proof. now apply EmitsN_silent. Qed.
Lemma EmitsN_saveTokens (td : TokenData) : EmitsN 0 P (saveTokens td).
Proof. apply EmitsN_silent. intros w. now destruct (saveTokens_memory td w) as (_ & _ & _ & _ & _ & H). Qed.
Lemma EmitsN_clearTokens : EmitsN 0 P clearTokens.
Proof. apply EmitsN_silent. intros w. now rewrite clearTokens_eq. Qed.
Lemma EmitsN_log_api (msg : string) : EmitsN 0 P (log_api msg).
Proof. apply EmitsN_silent. intros w. destruct (log_api_eq msg w) as [lg ->]. reflexivity. Qed.

Lemma EmitsN_axios_post (env : Env) (g : Grant) : P (TokenPost g) -> EmitsN 1 P (axios_post env g).
Proof.
  intros Hp w. exists [TokenPost g]. unfold axios_post, axios_receive, axios_send.
  destruct (outcome _); cbn; repeat split; auto.
Qed.

Lemma EmitsN_axios (env : Env) (o : Options) (h : AuthHeader) :
  P (ApiCall o h) -> EmitsN 1 P (axios env o h).
Proof.
  intros Hp w. exists [ApiCall o h]. unfold axios, axios_receive, axios_send.
  destruct (outcome _); cbn; repeat split; auto.
Qed.
End EmitsFacts.

Create HintDb emits.
#[local] Hint Resolve EmitsN_ret EmitsN_throw EmitsN_read EmitsN_update EmitsN_logger
  EmitsN_emit EmitsN_isTokenExpired EmitsN_getTokens EmitsN_saveTokens EmitsN_clearTokens
  EmitsN_log_api : emits.

Ltac hush := repeat (apply EmitsN_then; [auto with emits | intros ?]); auto with emits.

Lemma EmitsN_refreshAccessToken (P : NetCall -> Prop) (env : Env) :
  (forall rt, P (TokenPost (refresh_token_grant rt))) ->
  EmitsN 1 P (refreshAccessToken env).
Proof.
  intros HP. unfold refreshAccessToken.
  apply EmitsN_then; [auto with emits | intros rt].
  apply EmitsN_if; [apply (EmitsN_weaken P 0); [auto with emits | lia] |].
  apply (EmitsN_try_catch P 1 0).
  - apply EmitsN_then; [auto with emits | intros _].
    apply (EmitsN_bind P 1 0); [apply EmitsN_axios_post, HP | intros td]. hush.
  - intros e. hush.
Qed.

Lemma EmitsN_getAccessToken (P : NetCall -> Prop) (env : Env) :
  (forall rt, P (TokenPost (refresh_token_grant rt))) ->
  EmitsN 1 P (getAccessToken env).
Proof.
  intros HP. unfold getAccessToken.
  apply EmitsN_then; [auto with emits | intros authenticated].
  apply EmitsN_if; [apply (EmitsN_weaken P 0); [auto with emits | lia] |].
  apply EmitsN_then; [auto with emits | intros expired].
  apply (EmitsN_bind P 1 0); [| intros _; auto with emits].
  apply EmitsN_if; [| apply (EmitsN_weaken P 0); [auto with emits | lia]].
  apply (EmitsN_bind P 1 0); [now apply EmitsN_refreshAccessToken | intros _; auto with emits].
Qed.

Lemma EmitsN_getAuthHeaders (P : NetCall -> Prop) (env : Env) :
  (forall rt, P (TokenPost (refresh_token_grant rt))) ->
  EmitsN 1 P (getAuthHeaders env).
Proof.
  intros HP. unfold getAuthHeaders.
  apply (EmitsN_bind P 1 0); [now apply EmitsN_getAccessToken | intros t; auto with emits].
Qed.

Lemma EmitsN_loadTokens (P : NetCall -> Prop) (env : Env) :
  (forall rt, P (TokenPost (refresh_token_grant rt))) ->
  EmitsN 1 P (loadTokens env).
Proof.
  intros HP. unfold loadTokens.
  apply (EmitsN_try_catch P 1 0); [| intros e; auto with emits].
  apply EmitsN_then; [auto with emits | intros [r |]]; [| apply (EmitsN_weaken P 0); [auto with emits | lia]].
  do 6 (apply EmitsN_then; [auto with emits | intros ?]).
  apply EmitsN_if; [| apply (EmitsN_weaken P 0); [auto with emits | lia]].
  apply (EmitsN_bind P 1 0); [now apply EmitsN_refreshAccessToken | intros _; auto with emits].
Qed.

Lemma EmitsN_makeAuthenticatedRequest (P : NetCall -> Prop) (env : Env) (options : Options) :
  (forall rt, P (TokenPost (refresh_token_grant rt))) ->
  (forall h, P (ApiCall options (merge_headers h options))) ->
  EmitsN 5 P (makeAuthenticatedRequest env options).
Proof.
  intros HP HA. unfold makeAuthenticatedRequest.
  apply (EmitsN_bind P 1 4); [now apply EmitsN_getAuthHeaders | intros headers].
  apply (EmitsN_try_catch P 1 3).
  - apply EmitsN_then; [auto with emits | intros _].
    apply (EmitsN_bind P 1 0); [apply EmitsN_axios, HA | intros response]. hush.
  - intros err.
    apply EmitsN_if; [| apply (EmitsN_weaken P 0); [auto with emits | lia]].
    apply EmitsN_then; [auto with emits | intros _].
    apply (EmitsN_bind P 1 2); [now apply EmitsN_refreshAccessToken | intros _].
    apply (EmitsN_bind P 1 1); [now apply EmitsN_getAuthHeaders | intros newHeaders].
    apply EmitsN_axios, HA.
Qed.

(** X1. [loadTokens] never throws, whatever the store and the provider do, and
    sends at most one request, a refresh. *)
Theorem loadTokens_is_safe (env : Env) (w : World) :
  snd (loadTokens env w) = Return tt /\
  exists l, trace (fst (loadTokens env w)) = trace w ++ l /\
            Forall refresh_call l /\ (length l <= 1)%nat.
Proof.
  split; [apply loadTokens_never_throws |].
  apply (EmitsN_loadTokens refresh_call env). intros rt. reflexivity.
Qed.

(** X2. After [clearTokens], a manager constructed over the same store loads
    nothing: [loadTokens] leaves it unauthenticated and touches nothing. *)
Theorem logout_survives_restart (env : Env) (w w0 : World) (t : Z) :
  let a := this (fst (clearTokens w)) in
  loadTokens env (restart a t w0) = (restart a t w0, Return tt) /\
  isAuthenticated (this (restart a t w0)) = false.
Proof.
  intros a. split; [| reflexivity].
  apply loadTokens_empty. subst a. rewrite clearTokens_eq. reflexivity.
Qed.

(** X3. What [saveTokens] persisted is what [loadTokens] restores: a manager
    constructed over the store before the token runs out gets the same access
    token, refresh token and expiry, is authenticated, and sends nothing. *)
Theorem persisted_record_round_trip (env : Env) (td : TokenData) (w w0 : World) (t : Z) :
  snd (saveTokens td w) = Return tt ->
  let a := this (fst (saveTokens td w)) in
  expired_at t a = false ->
  let w' := fst (loadTokens env (restart a t w0)) in
  accessToken (this w') = accessToken a /\
  refreshToken (this w') = refreshToken a /\
  tokenExpiry (this w') = tokenExpiry a /\
  isAuthenticated (this w') = true /\
  trace w' = trace w0.
Proof.
  intros Hok a Hfresh w'.
  assert (Hst : exists ms,
             tokenExpiry a = Some (Time ms) /\ Z.abs ms <= MAX_TIME /\
             TokenStorage.getTokens (tokenStorage a) =
               Some (TokenStorage.mkTokens (accessToken a) (refreshToken a) ms)).
  { subst a. revert Hok. rewrite saveTokens_eq. cbv zeta.
    destruct (newDate _) as [ms |] eqn:Hd;
      [destruct (TokenStorage.writable _) |]; cbn; try discriminate.
    intros _. destruct (newDate_inv _ _ Hd) as [-> Hr].
    exists (clock w + (or_number (expires_in td) 3600 - 300) * 1000).
    unfold saved. rewrite Hd. repeat split. exact Hr. }
  destruct Hst as (ms & Hexp & Hrange & Hget).
  subst w'. rewrite (loadTokens_stored env (restart a t w0) _ Hget). cbv zeta.
  assert (Hl : expired_at t (loaded (TokenStorage.mkTokens (accessToken a) (refreshToken a) ms)
                                    (this (restart a t w0))) = false).
  { unfold expired_at, loaded. cbn. rewrite (newDate_in_range _ Hrange).
    unfold expired_at in Hfresh. rewrite Hexp in Hfresh. exact Hfresh. }
  cbn [clock restart]. rewrite Hl. cbn. rewrite (newDate_in_range _ Hrange), Hexp.
  repeat split.
Qed.

(** X4. When the stored token has run out and the provider rejects the
    refresh, [loadTokens] still returns normally; the record is cleared from
    memory and from the store, after one refresh request. *)
Theorem loadTokens_expired_rejected
        (env : Env) (w : World) (r : TokenStorage.tokens) (rej : AxiosRejection) :
  TokenStorage.getTokens (tokenStorage (this w)) = Some r ->
  expired_at (clock w) (loaded r (this w)) = true ->
  truthy_string (TokenStorage.refreshToken r) = true ->
  let g := refresh_token_grant (string_value (TokenStorage.refreshToken r)) in
  outcome (token_endpoint env (length (trace w)) g) = inl rej ->
  let w' := fst (loadTokens env w) in
  snd (loadTokens env w) = Return tt /\
  this w' = cleared (this w) /\
  TokenStorage.getTokens (tokenStorage (this w')) = None /\
  trace w' = trace w ++ [TokenPost g].
Proof.
  intros Hget Hexp Hrt g Hout w'. subst w'.
  rewrite (loadTokens_stored env w r Hget). cbv zeta. rewrite Hexp.
  set (w1 := mkWorld _ _ _ _ _).
  rewrite (refreshAccessToken_rejected env w1 rej Hrt Hout). cbn.
  repeat split.
Qed.

(** X5. When the stored token has run out and the record holds no refresh
    token, [loadTokens] swallows the error of the guard: the manager stays
    authenticated with the expired token, the store keeps the record, nothing
    is sent, and [getAccessToken] then throws [No refresh token available]. *)
Theorem loadTokens_expired_without_refresh_token
        (env : Env) (w : World) (r : TokenStorage.tokens) :
  TokenStorage.getTokens (tokenStorage (this w)) = Some r ->
  expired_at (clock w) (loaded r (this w)) = true ->
  truthy_string (TokenStorage.refreshToken r) = false ->
  let w' := fst (loadTokens env w) in
  this w' = loaded r (this w) /\
  isAuthenticated (this w') = true /\
  trace w' = trace w /\
  TokenStorage.getTokens (tokenStorage (this w')) = Some r /\
  getAccessToken env w' = (w', Throw (Error "No refresh token available")).
Proof.
  intros Hget Hexp Hrt w'.
  assert (Hw' : w' = mkWorld (loaded r (this w)) (clock w) (trace w)
                        (logs w ++ [mkLog log_info "Loaded existing authentication tokens" None;
                                    mkLog log_debug "No existing tokens found" None])
                        (emitted w)).
  { subst w'. rewrite (loadTokens_stored env w r Hget). cbv zeta. rewrite Hexp.
    rewrite refreshAccessToken_guard by exact Hrt. cbn. rewrite <- app_assoc. reflexivity. }
  rewrite Hw'. cbn [this trace]. repeat split.
  - exact Hget.
  - rewrite getAccessToken_expired; [| reflexivity | exact Hexp].
    rewrite refreshAccessToken_guard by exact Hrt. reflexivity.
Qed.

Lemma handleCallback_eq (env : Env) (code : string) (w : World) :
  handleCallback env code w =
  let r := token_endpoint env (length (trace w)) (authorization_code code) in
  let w1 := mkWorld (this w) (clock w + delay r)
                    (trace w ++ [TokenPost (authorization_code code)]) (logs w) (emitted w) in
  let failed (e : JsError) (w2 : World) :=
    (mkWorld (this w2) (clock w2) (trace w2)
             (logs w2 ++ [mkLog log_error "Failed to exchange authorization code:"
                                (Some (error_detail e))])
             (emitted w2),
     @Throw bool (Error "Authentication failed")) in
  match outcome r with
  | inl rej => failed (AxiosError rej) w1
  | inr td =>
      match saveTokens td w1 with
      | (w2, Return _) =>
          (mkWorld (this w2) (clock w2) (trace w2)
                   (logs w2 ++ [mkLog log_info "Successfully authenticated with Autodesk" None])
                   (emitted w2 ++ ["authenticated"]),
           Return true)
      | (w2, Throw e) => failed e w2
      end
  end.
Proof.
  unfold handleCallback.
  remember saveTokens as save eqn:Hsave.
  unfold try_catch, bind, axios_post, axios_receive, axios_send. cbn.
  destruct (outcome _) as [rej | td]; [reflexivity |].
  match goal with |- context [save td ?x] => destruct (save td x) as [w2 [[] | e]] end;
    reflexivity.
Qed.

(** X6. [handleCallback] sends exactly one request, the code exchange, and
    either returns [true] or throws [Error("Authentication failed")]; no other
    error leaves it. *)
Theorem handleCallback_one_request (env : Env) (code : string) (w : World) :
  trace (fst (handleCallback env code w)) = trace w ++ [TokenPost (authorization_code code)] /\
  (snd (handleCallback env code w) = Return true \/
   snd (handleCallback env code w) = Throw (Error "Authentication failed")).
Proof.
  rewrite handleCallback_eq. cbv zeta.
  destruct (outcome _) as [rej | td].
  - split; [reflexivity | right; reflexivity].
  - set (w1 := mkWorld _ _ _ _ _).
    destruct (saveTokens_memory td w1) as (_ & _ & _ & _ & _ & Htr).
    destruct (saveTokens td w1) as [w2 [[] | e]]; cbn in *; rewrite Htr;
      (split; [reflexivity | auto]).
Qed.

(** X7. When the lifetime in the token response puts the expiry outside the
    range of [Date], [toISOString] throws inside [saveTokens]: [handleCallback]
    fails and nothing is persisted, yet the manager is left authenticated with
    the new access token, and since an invalid date never compares as reached,
    [getAccessToken] returns that token at every later time without a
    refresh. *)
Theorem handleCallback_unrepresentable_expiry
        (env : Env) (code : string) (w : World) (td : TokenData) :
  let r := token_endpoint env (length (trace w)) (authorization_code code) in
  outcome r = inr td ->
  MAX_TIME < Z.abs (clock w + delay r + (or_number (expires_in td) 3600 - 300) * 1000) ->
  let w' := fst (handleCallback env code w) in
  snd (handleCallback env code w) = Throw (Error "Authentication failed") /\
  tokenStorage (this w') = tokenStorage (this w) /\
  isAuthenticated (this w') = true /\
  accessToken (this w') = access_token td /\
  forall t, getAccessToken env (at_time t w') = (at_time t w', Return (access_token td)).
Proof.
  intros r Hout Hbig w'.
  assert (Hd : newDate (clock w + delay r + (or_number (expires_in td) 3600 - 300) * 1000)
               = InvalidDate).
  { unfold newDate. destruct (Z.leb_spec (Z.abs (clock w + delay r +
        (or_number (expires_in td) 3600 - 300) * 1000)) MAX_TIME); [lia | reflexivity]. }
  assert (Hw' : exists lg, handleCallback env code w =
            (mkWorld (saved td (clock w + delay r) (this w)) (clock w + delay r)
                     (trace w ++ [TokenPost (authorization_code code)]) lg (emitted w),
             Throw (Error "Authentication failed"))).
  { rewrite handleCallback_eq. cbv zeta. fold r. rewrite Hout.
    rewrite saveTokens_eq. cbv zeta. cbn [this clock trace logs emitted]. rewrite Hd.
    eexists. unfold with_this. cbn. reflexivity. }
  destruct Hw' as (lg & Hw'). subst w'. rewrite Hw'. cbn [fst snd this].
  repeat split.
  intros t. apply getAccessToken_valid; [reflexivity |].
  cbn. unfold expired_at, saved. cbn. rewrite Hd. reflexivity.
Qed.

(** X8. A refresh the provider answers still ends in the [catch] block when
    [saveTokens] throws (expiry outside the range of [Date], or a store that
    refuses the write): the record is cleared and
    [Error("Token refresh failed - please re-authenticate")] is thrown. *)
Theorem refresh_save_failure_clears (env : Env) (w : World) (td : TokenData) :
  truthy_string (refreshToken (this w)) = true ->
  let g := refresh_token_grant (string_value (refreshToken (this w))) in
  let r := token_endpoint env (length (trace w)) g in
  outcome r = inr td ->
  (MAX_TIME < Z.abs (clock w + delay r + (or_number (expires_in td) 3600 - 300) * 1000) \/
   TokenStorage.writable (tokenStorage (this w)) = false) ->
  let w' := fst (refreshAccessToken env w) in
  snd (refreshAccessToken env w) =
    Throw (Error "Token refresh failed - please re-authenticate") /\
  accessToken (this w') = None /\
  refreshToken (this w') = None /\
  isAuthenticated (this w') = false /\
  TokenStorage.getTokens (tokenStorage (this w')) = None.
Proof.
  intros Ht g r Hout Hfail w'. subst w'.
  destruct w as [[at0 rt0 ex0 au0 [st wr] lg] ck tr lgs em]. cbn in *.
  unfold refreshAccessToken, bind, read, try_catch, logger, axios_post,
    axios_receive, axios_send. cbn.
  rewrite Ht. cbn. fold g. fold r. rewrite Hout.
  unfold saveTokens, bind, update, read, Date_now, lift, tokenStorage_saveTokens,
    TokenStorage.saveTokens, emit, ret. cbn.
  unfold newDate.
  destruct (Z.leb_spec (Z.abs (ck + delay r + (or_number (expires_in td) 3600 - 300) * 1000))
                       MAX_TIME) as [Hle | Hgt]; cbn.
  - destruct Hfail as [Hbig | ->]; [lia |]. cbn. repeat split.
  - repeat split.
Qed.

(** X9. [saveTokens] never loses the ability to refresh: a manager that holds
    a refresh token holds one afterwards, the one of the response or the one
    it had. *)
Theorem saveTokens_keeps_refresh_token (td : TokenData) (w : World) :
  truthy_string (refreshToken (this w)) = true ->
  let rt' := refreshToken (this (fst (saveTokens td w))) in
  truthy_string rt' = true /\
  (rt' = refresh_token td \/ rt' = refreshToken (this w)).
Proof.
  intros Ht rt'. destruct (saveTokens_memory td w) as (_ & Hr & _).
  subst rt'. rewrite Hr. unfold or_string.
  destruct (truthy_string (refresh_token td)) eqn:E; auto.
Qed.

(** X10. [getAccessToken] does not look at the expiry again after a refresh:
    when the refreshed token lives 300 seconds or less it is returned although
    [isTokenExpired] already answers [true]. *)
Theorem short_lived_token_returned_expired
        (env : Env) (w : World) (td : TokenData) (ttl : Z) :
  isAuthenticated (this w) = true ->
  expired_at (clock w) (this w) = true ->
  truthy_string (refreshToken (this w)) = true ->
  let g := refresh_token_grant (string_value (refreshToken (this w))) in
  let r := token_endpoint env (length (trace w)) g in
  outcome r = inr td ->
  expires_in td = Some ttl -> ttl <> 0 -> ttl <= 300 ->
  Z.abs (clock w + delay r + (ttl - 300) * 1000) <= MAX_TIME ->
  TokenStorage.writable (tokenStorage (this w)) = true ->
  snd (getAccessToken env w) = Return (access_token td) /\
  snd (isTokenExpired (fst (getAccessToken env w))) = Return true.
Proof.
  intros Ha He Ht g r Hout Httl Hnz Hle Hrange Hw.
  assert (Hor : or_number (expires_in td) 3600 = ttl).
  { rewrite Httl. now apply or_number_truthy. }
  rewrite (getAccessToken_expired env w Ha He).
  rewrite (refreshAccessToken_resolved env w td Ht Hout); [| fold g r; now rewrite Hor | exact Hw].
  cbn [fst snd]. split; [reflexivity |].
  rewrite isTokenExpired_eq. cbn [fst snd this clock].
  unfold expired_at, set_tokenStorage, saved. cbn [tokenExpiry].
  fold g r. rewrite Hor, (newDate_in_range _ Hrange). cbn [Date_ge].
  f_equal. apply Z.leb_le. lia.
Qed.

(** X12. Without authentication [makeAuthenticatedRequest] throws
    [Error("Not authenticated ...")] before anything is sent or changed. *)
Theorem request_unauthenticated (env : Env) (options : Options) (w : World) :
  isAuthenticated (this w) = false ->
  makeAuthenticatedRequest env options w =
  (w, Throw (Error "Not authenticated - please run with --auth flag to authenticate")).
Proof.
  intros Ha. unfold makeAuthenticatedRequest, bind at 1. unfold getAuthHeaders, bind at 1.
  rewrite (getAccessToken_unauthenticated env w Ha). reflexivity.
Qed.

(** The first attempt of a request made with a valid token. *)
Lemma request_first_attempt (env : Env) (options : Options) (w : World) :
  isAuthenticated (this w) = true ->
  expired_at (clock w) (this w) = false ->
  let h := merge_headers (Bearer (accessToken (this w))) options in
  let first := api_endpoint env (length (trace w)) options h in
  exists lg,
    let w1 := mkWorld (this w) (clock w + delay first) (trace w ++ [ApiCall options h])
                      lg (emitted w) in
    makeAuthenticatedRequest env options w =
    match outcome first with
    | inr resp =>
        let (w2, _) := log_api "API Response:" w1 in (w2, Return resp)
    | inl rej =>
        if is_401 (AxiosError rej)
        then (logger log_debug "Token expired, attempting refresh..." None ;;
              refreshAccessToken env ;;
              newHeaders <- getAuthHeaders env ;;
              axios env options (merge_headers newHeaders options)) w1
        else (w1, Throw (AxiosError rej))
    end.
Proof.
  intros Ha He h first.
  destruct (log_api_eq "API Request:" w) as [lg Hlog]. exists lg. cbv zeta.
  unfold makeAuthenticatedRequest. unfold bind at 1.
  rewrite (getAuthHeaders_valid env w Ha He). fold h.
  unfold try_catch. unfold bind at 1. rewrite Hlog.
  unfold bind at 1. unfold axios at 1, axios_receive, axios_send.
  cbn [this clock trace logs emitted]. fold first.
  destruct (outcome first) as [rej | resp].
  - destruct (is_401 (AxiosError rej)); reflexivity.
  - destruct (log_api_eq "API Response:"
                (mkWorld (this w) (clock w + delay first) (trace w ++ [ApiCall options h])
                         lg (emitted w))) as [lg2 Hlog2].
    unfold bind at 1. rewrite Hlog2. reflexivity.
Qed.

(** X13. With a valid token and an API that answers, [makeAuthenticatedRequest]
    sends one request carrying the stored token (or the caller's own
    [Authorization] header), returns the response and leaves the manager as
    it was. *)
Theorem request_first_attempt_ok
        (env : Env) (options : Options) (w : World) (resp : ApiResponse) :
  isAuthenticated (this w) = true ->
  expired_at (clock w) (this w) = false ->
  let h := merge_headers (Bearer (accessToken (this w))) options in
  outcome (api_endpoint env (length (trace w)) options h) = inr resp ->
  let w' := fst (makeAuthenticatedRequest env options w) in
  snd (makeAuthenticatedRequest env options w) = Return resp /\
  trace w' = trace w ++ [ApiCall options h] /\
  this w' = this w.
Proof.
  intros Ha He h Hout w'. subst w'.
  destruct (request_first_attempt env options w Ha He) as [lg Heq].
  cbv zeta in Heq. fold h in Heq. rewrite Hout in Heq. rewrite Heq.
  match goal with |- context [log_api ?m ?x] =>
    destruct (log_api_eq m x) as [lg2 ->] end.
  repeat split.
Qed.

(** X14. A failure of the request that is not a 401 is thrown as it is, after
    that single request: no refresh, no retry, the manager unchanged. *)
Theorem request_other_error
        (env : Env) (options : Options) (w : World) (rej : AxiosRejection) :
  isAuthenticated (this w) = true ->
  expired_at (clock w) (this w) = false ->
  let h := merge_headers (Bearer (accessToken (this w))) options in
  outcome (api_endpoint env (length (trace w)) options h) = inl rej ->
  is_401 (AxiosError rej) = false ->
  let w' := fst (makeAuthenticatedRequest env options w) in
  snd (makeAuthenticatedRequest env options w) = Throw (AxiosError rej) /\
  trace w' = trace w ++ [ApiCall options h] /\
  this w' = this w.
Proof.
  intros Ha He h Hout H401 w'. subst w'.
  destruct (request_first_attempt env options w Ha He) as [lg Heq].
  cbv zeta in Heq. fold h in Heq. rewrite Hout, H401 in Heq. rewrite Heq.
  repeat split.
Qed.

(** X15. When the request is answered with 401 and the forced refresh is
    rejected, the caller gets
    [Error("Token refresh failed - please re-authenticate")] and not the 401;
    the request is not retried and the record is cleared. *)
Theorem request_401_refresh_rejected
        (env : Env) (options : Options) (w : World) (rej rej' : AxiosRejection) :
  isAuthenticated (this w) = true ->
  expired_at (clock w) (this w) = false ->
  let h := merge_headers (Bearer (accessToken (this w))) options in
  outcome (api_endpoint env (length (trace w)) options h) = inl rej ->
  is_401 (AxiosError rej) = true ->
  truthy_string (refreshToken (this w)) = true ->
  let g := refresh_token_grant (string_value (refreshToken (this w))) in
  outcome (token_endpoint env (S (length (trace w))) g) = inl rej' ->
  let w' := fst (makeAuthenticatedRequest env options w) in
  snd (makeAuthenticatedRequest env options w) =
    Throw (Error "Token refresh failed - please re-authenticate") /\
  trace w' = trace w ++ [ApiCall options h; TokenPost g] /\
  this w' = cleared (this w).
Proof.
  intros Ha He h Hout H401 Ht g Hout' w'. subst w'.
  destruct (request_first_attempt env options w Ha He) as [lg Heq].
  cbv zeta in Heq. fold h in Heq. rewrite Hout, H401 in Heq.
  unfold bind at 1 in Heq. unfold logger at 1 in Heq.
  cbn [this clock trace logs emitted] in Heq.
  set (w2 := mkWorld _ _ _ _ _) in Heq.
  assert (Hlen : length (trace w2) = S (length (trace w))).
  { subst w2. cbn. rewrite length_app. cbn. lia. }
  pose proof (refreshAccessToken_rejected env w2 rej' Ht) as Hr.
  cbv zeta in Hr. rewrite Hlen in Hr. specialize (Hr Hout').
  unfold bind at 1 in Heq. rewrite Hr in Heq. rewrite Heq.
  cbn [fst snd this trace]. subst w2. cbn [this trace].
  repeat split. now rewrite <- app_assoc.
Qed.

(** X16. When the caller's options carry an [Authorization] header, every API
    request [makeAuthenticatedRequest] sends carries that header: the bearer
    token never goes out, on the first attempt or on the retry. *)
Theorem caller_authorization_wins
        (env : Env) (options : Options) (w : World) (v : string) :
  opt_authorization options = Some v ->
  exists l,
    trace (fst (makeAuthenticatedRequest env options w)) = trace w ++ l /\
    Forall (fun c => is_refresh c = true \/ c = ApiCall options (Custom v)) l.
Proof.
  intros Hv.
  destruct (EmitsN_makeAuthenticatedRequest
              (fun c => is_refresh c = true \/ c = ApiCall options (Custom v))
              env options) with (w := w) as (l & H1 & H2 & _).
  - intros rt. left. reflexivity.
  - intros h. right. unfold merge_headers. rewrite Hv. reflexivity.
  - exists l. split; assumption.
Qed.

(** X11. [getAccessToken] sends at most one request, a refresh, from whatever
    state it is called. *)
Theorem getAccessToken_requests (env : Env) (w : World) :
  exists l, trace (fst (getAccessToken env w)) = trace w ++ l /\
            Forall refresh_call l /\ (length l <= 1)%nat.
Proof.
  apply (EmitsN_getAccessToken refresh_call env). intros rt. reflexivity.
Qed.

Lemma on_response_rejected (env : Env) (n : nat) (g : Grant) (w : World) (rej : AxiosRejection) :
  let r := token_endpoint env n g in
  outcome r = inl rej ->
  on_response env n g w =
  (mkWorld (cleared (this w)) (clock w + delay r) (trace w)
           (logs w ++ [mkLog log_error "Failed to refresh token:"
                             (Some (error_detail (AxiosError rej)));
                       mkLog log_info "Cleared authentication tokens" None])
           (emitted w ++ ["logout"]),
   Settled (Throw (Error "Token refresh failed - please re-authenticate"))).
Proof.
  intros r Hout. destruct w as [[at0 rt0 ex0 au0 st lg] ck tr lgs em].
  unfold on_response, try_catch, bind, axios_receive. cbn. fold r. rewrite Hout.
  cbn. rewrite <- !app_assoc. reflexivity.
Qed.

Lemma on_response_resolved (env : Env) (n : nat) (g : Grant) (w : World) (td : TokenData) :
  let r := token_endpoint env n g in
  outcome r = inr td ->
  Z.abs (clock w + delay r + (or_number (expires_in td) 3600 - 300) * 1000) <= MAX_TIME ->
  TokenStorage.writable (tokenStorage (this w)) = true ->
  let a := saved td (clock w + delay r) (this w) in
  on_response env n g w =
  (mkWorld (set_tokenStorage
              (TokenStorage.mkStore
                 (Some (TokenStorage.mkTokens
                          (accessToken a) (refreshToken a)
                          (clock w + delay r + (or_number (expires_in td) 3600 - 300) * 1000)))
                 true) a)
           (clock w + delay r) (trace w) (logs w) (emitted w),
   AwaitingSave).
Proof.
  intros r Hout Hrange Hw a.
  destruct w as [[at0 rt0 ex0 au0 [st wr] lg] ck tr lgs em]. cbn in *.
  subst wr a. unfold saved.
  unfold on_response, try_catch, bind, axios_receive. cbn. fold r. rewrite Hout.
  unfold saveTokens, bind, update, read, Date_now, lift, tokenStorage_saveTokens,
    TokenStorage.saveTokens, ret. cbn.
  rewrite !(newDate_in_range _ Hrange). reflexivity.
Qed.

(** X17. Two callers find the token expired; the provider answers the first
    refresh and rejects the second (a rotated refresh token).  If the
    rejection arrives before the first caller goes on, the record is cleared
    under it: the first caller resolves with [null] as access token, the
    second is rejected, and the manager ends unauthenticated. *)
Theorem late_rejection_clobbers
        (env : Env) (w : World) (td : TokenData) (rej : AxiosRejection) :
  isAuthenticated (this w) = true ->
  expired_at (clock w) (this w) = true ->
  truthy_string (refreshToken (this w)) = true ->
  let g := refresh_token_grant (string_value (refreshToken (this w))) in
  let first := token_endpoint env (length (trace w)) g in
  let second := token_endpoint env (S (length (trace w))) g in
  outcome first = inr td ->
  Z.abs (clock w + delay first + (or_number (expires_in td) 3600 - 300) * 1000) <= MAX_TIME ->
  TokenStorage.writable (tokenStorage (this w)) = true ->
  outcome second = inl rej ->
  let cfg := run env [0; 1; 0]%nat (spawn 2 w) in
  snd cfg = [Settled (Return None);
             Settled (Throw (Error "Token refresh failed - please re-authenticate"))] /\
  this (fst cfg) = cleared (this w).
Proof.
  intros Ha He Ht g first second Hfirst Hrange Hw Hsecond cfg.
  assert (Hspawn : exists lg,
             spawn 2 w = (mkWorld (this w) (clock w) (trace w ++ [TokenPost g; TokenPost g])
                                  lg (emitted w),
                          [AwaitingAxios (length (trace w)) g;
                           AwaitingAxios (S (length (trace w))) g])).
  { cbn [spawn]. rewrite (getAccessToken_call_expired w Ha He Ht). fold g.
    set (w1 := mkWorld _ _ _ _ _).
    rewrite (getAccessToken_call_expired w1 Ha He Ht). subst w1.
    cbn [this clock trace logs emitted]. fold g.
    rewrite length_app, <- app_assoc. cbn [length app].
    replace (length (trace w) + 1)%nat with (S (length (trace w))) by lia.
    eexists. reflexivity. }
  destruct Hspawn as [lg Hspawn].
  assert (Hrun : exists w',
             cfg = (w', [Settled (Return None);
                         Settled (Throw (Error "Token refresh failed - please re-authenticate"))])
             /\ this w' = cleared (this w)).
  { subst cfg. rewrite Hspawn.
    unfold run. cbn [fold_left].
    set (w2 := mkWorld _ _ _ _ _).
    unfold step at 3. cbn [snd fst nth_error resume].
    rewrite (on_response_resolved env _ g w2 td Hfirst Hrange Hw). cbn [set_nth].
    set (w3 := mkWorld _ _ _ _ _).
    unfold step at 2. cbn [snd fst nth_error resume].
    rewrite (on_response_rejected env _ g w3 rej Hsecond). cbn [set_nth].
    unfold step. cbn [snd fst nth_error resume].
    unfold on_saved, bind, logger, emit, read.
    cbn [fst snd this set_nth accessToken cleared logs emitted clock trace].
    eexists. split; [reflexivity |].
    subst w3 w2. cbn [this]. unfold cleared, set_tokenStorage, saved. cbn.
    unfold TokenStorage.clearTokens. cbn. rewrite Hw. reflexivity. }
  destruct Hrun as (w' & -> & Hthis). split; [reflexivity | exact Hthis].
Qed.

(** ** The authorization URL *)








(** ** Tool registration and tool handlers *)

Import Tools.


Lemma register_each_app {S : Type} (l1 l2 : list (string * Tool S nat)) :
  forall total st,
    register_each S (l1 ++ l2) total st =
    match register_each S l1 total st with
    | (st1, inr t1) => register_each S l2 t1 st1
    | (st1, inl e) => (st1, inl e)
    end.
Proof.
  induction l1 as [| [name reg] rest IH]; intros total st; [reflexivity |].
  cbn [app register_each].
  destruct (reg st) as [st1 [e | count]]; [reflexivity | apply IH].
Qed.

Lemma register_each_counts {S : Type} (regs : list (string * Tool S nat)) (counts : list nat) :
  Forall2 (fun reg c => forall st, snd (snd reg st) = inr c) regs counts ->
  forall total st, snd (register_each S regs total st) = inr (total + list_sum counts)%nat.
Proof.
  induction 1 as [| [name reg] c regs counts Hreg Hrest IH]; intros total st.
  - cbn. f_equal. lia.
  - change (list_sum (c :: counts)) with (c + list_sum counts)%nat.
    cbn [register_each]. cbn [snd] in Hreg. specialize (Hreg st).
    destruct (reg st) as [st1 [e | count]]; cbn [snd] in Hreg; [discriminate |].
    injection Hreg as ->. rewrite IH. f_equal. lia.
Qed.

(** X19. When every registration function succeeds, [registerTools] returns
    the sum of their counts and its last log line reports that sum. *)
Theorem registerTools_total {S : Type} (r : Registrations S) (counts : list nat) (st : State S) :
  Forall2 (fun reg c => forall st, snd (snd reg st) = inr c) (toolRegistrations S r) counts ->
  snd (registerTools S r st) = inr (list_sum counts) /\
  exists lg,
    snd (fst (registerTools S r st)) =
    lg ++ [mkLog log_info ("Total tools registered: " ++ number_text (list_sum counts))%string
                 None].
Proof.
  intros H. unfold registerTools, registerTools_over.
  pose proof (register_each_counts _ _ H 0%nat (log S log_info "Registering tools..." None st))
    as Hc.
  destruct (register_each S _ 0 _) as [st1 [e | total]]; cbn [snd] in Hc; [discriminate |].
  injection Hc as ->. cbn [Nat.add]. split; [reflexivity |].
  exists (snd st1). reflexivity.
Qed.

(** X20. [registerTools] stops at the first registration function that
    throws: the value thrown is rethrown as it is, after one error line; no
    later registration runs and no total is logged. *)
Theorem registerTools_stops_at_first_failure
        {S : Type} (r : Registrations S) (before after : list (string * Tool S nat))
        (name : string) (register : Tool S nat)
        (st st1 st2 : State S) (total : nat) (error : Thrown) :
  toolRegistrations S r = before ++ (name, register) :: after ->
  register_each S before 0 (log S log_info "Registering tools..." None st) = (st1, inr total) ->
  register st1 = (st2, inl error) ->
  registerTools S r st =
  (log S log_error ("Failed to register " ++ name ++ " tools:")%string (thrown_detail error) st2,
   inl error).
Proof.
  intros Hsplit Hbefore Hfail. unfold registerTools, registerTools_over.
  rewrite Hsplit, register_each_app, Hbefore. cbn [register_each]. rewrite Hfail. reflexivity.
Qed.


(** X22. A [ZodError] is answered with the text [Validation error: ...] and
    [isError], and is not logged, wherever it comes from.  When it comes from
    [schema.parse] the tool's own handler is not called; but a [ZodError]
    thrown by the tool's handler or while serializing is reported as a
    validation error of the arguments just the same. *)
Theorem tool_handler_validation_failure
        {S Args V R : Type} (name : string) (parse : Args -> Thrown + V)
        (handler : V -> Tool S R) (stringify : R -> Thrown + option string)
        (args : Args) (st : State S) (errors : list ZodIssue) :
  let answer :=
    mkToolResult (Some ("Validation error: " ++ issues_text errors)%string) true in
  (parse args = inl (ZodError errors) ->
   tool_handler S name parse handler stringify args st = (st, inr answer)) /\
  (forall v st1,
     parse args = inr v ->
     handler v st = (st1, inl (ZodError errors)) ->
     tool_handler S name parse handler stringify args st = (st1, inr answer)) /\
  (forall v st1 res,
     parse args = inr v ->
     handler v st = (st1, inr res) ->
     stringify res = inl (ZodError errors) ->
     tool_handler S name parse handler stringify args st = (st1, inr answer)).
Proof.
  intros answer. unfold tool_handler. repeat split.
  - intros Hp. now rewrite Hp.
  - intros v st1 Hp Hh. now rewrite Hp, Hh.
  - intros v st1 res Hp Hh Hs. now rewrite Hp, Hh, Hs.
Qed.

(** X23. A result of a tool handler comes without [isError] exactly when
    validation, the handler and [JSON.stringify] all succeeded, and its text
    is then the serialized result. *)
Theorem tool_handler_isError
        {S Args V R : Type} (name : string) (parse : Args -> Thrown + V)
        (handler : V -> Tool S R) (stringify : R -> Thrown + option string)
        (args : Args) (st : State S) (result : ToolResult) :
  snd (tool_handler S name parse handler stringify args st) = inr result ->
  (isError result = false <->
   exists v st1 res, parse args = inr v /\ handler v st = (st1, inr res) /\
                     stringify res = inr (text result)).
Proof.
  unfold tool_handler.
  destruct (parse args) as [e | v] eqn:Hp.
  - destruct e as [errors | m | |]; cbn; intros H; try discriminate H;
      injection H as <-; cbn;
      (split; [discriminate | intros (v' & st1' & res' & Hv & Hh' & Hs'); congruence]).
  - destruct (handler v st) as [st1 [e | res]] eqn:Hh.
    + destruct e as [errors | m | |]; cbn; intros H; try discriminate H;
        injection H as <-; cbn;
        (split; [discriminate | intros (v' & st1' & res' & Hv & Hh' & Hs'); congruence]).
    + destruct (stringify res) as [e | t] eqn:Hs.
      * destruct e as [errors | m | |]; cbn; intros H; try discriminate H;
          injection H as <-; cbn;
          (split; [discriminate | intros (v' & st1' & res' & Hv & Hh' & Hs'); congruence]).
      * cbn. intros H. injection H as <-. cbn. split; [| reflexivity].
        intros _. exists v, st1, res. repeat split; assumption.
Qed.

Lemma assign_properties_app {A B : Type} (convert : A -> B) (l1 l2 : list (string * A)) :
  assign_properties convert (l1 ++ l2) =
  assign_properties convert l1 ++ assign_properties convert l2.
Proof.
  induction l1 as [| [key value] rest IH]; [reflexivity |].
  cbn. destruct (String.eqb key "__proto__"); cbn; now rewrite IH.
Qed.

Lemma assign_properties_keys {A B : Type} (convert : A -> B) (entries : list (string * A))
      (k : string) :
  In k (map fst (assign_properties convert entries)) <->
  In k (map fst entries) /\ k <> "__proto__".
Proof.
  induction entries as [| [key value] rest IH]; cbn.
  - tauto.
  - destruct (String.eqb_spec key "__proto__") as [-> | Hne]; cbn; rewrite IH.
    + split; [tauto |]. intros [[<- | H] Hk]; [contradiction | tauto].
    + split; [intros [<- | [H Hk]]; tauto | tauto].
Qed.

(** X24. The descriptor [createTool] builds has a non-empty description and
    an input schema of type [object].  Its properties are the keys of the
    shape other than [__proto__], which the assignment turns into the
    prototype; so every required field is declared by the properties except
    a non-optional field named [__proto__], which is required and not
    declared. *)
Theorem createTool_descriptor (name : string) (schema : ZodType) :
  let info := createTool_info name schema in
  tool_description info <> "" /\
  inputSchema_type info = "object" /\
  (forall k, In k (inputSchema_required info) ->
             k <> "__proto__" ->
             In k (map fst (inputSchema_properties info))) /\
  ~ In "__proto__" (map fst (inputSchema_properties info)) /\
  (forall shape d value,
     schema = ZodObject shape d ->
     In ("__proto__", value) shape ->
     is_ZodOptional value = false ->
     In "__proto__" (inputSchema_required info)).
Proof.
  cbn. repeat split.
  - unfold or_string. destruct (zod_description schema) as [[| c d] |]; cbn; discriminate.
  - destruct schema; cbn; try (intros k []).
    intros k Hk Hne. apply assign_properties_keys. split; [| exact Hne].
    apply in_map_iff in Hk as ([k' v] & <- & Hin).
    apply filter_In in Hin as [Hin _]. apply in_map_iff.
    exists (k', v). split; [reflexivity | exact Hin].
  - destruct schema; cbn; try (intros []).
    intros H. apply assign_properties_keys in H as [_ H]. now apply H.
  - intros shape d value -> Hin Hopt. cbn. apply in_map_iff.
    exists ("__proto__", value). split; [reflexivity |].
    apply filter_In. split; [exact Hin |]. cbn. now rewrite Hopt.
Qed.

Lemma createTool_descriptor_witness :
  let schema := ZodObject [("projectId", ZodString None);
                           ("__proto__", ZodNumber None);
                           ("limit", ZodOptional (ZodNumber None) None)] None in
  let info := createTool_info "get_project" schema in
  tool_description info = "Execute get_project" /\
  In "projectId" (map fst (inputSchema_properties info)) /\
  In "__proto__" (inputSchema_required info) /\
  ~ In "__proto__" (map fst (inputSchema_properties info)).
Proof.
  intros schema info.
  destruct (createTool_descriptor "get_project" schema) as (_ & _ & Hdecl & Hnot & Hreq).
  split; [reflexivity |].
  split; [apply Hdecl; [cbn; tauto | discriminate] |].
  split; [| exact Hnot].
  apply (Hreq _ None (ZodNumber None) eq_refl); [cbn; tauto | reflexivity].
Defined.

(** X25. Making a field optional changes what is required and nothing else:
    the properties are those of the field's own type (the description of the
    wrapper is dropped) and the field leaves the required list. *)
Theorem optional_is_transparent
        (s1 s2 : list (string * ZodType)) (k : string) (v : ZodType) (d d' : option string) :
  zodToJsonSchema (ZodObject (s1 ++ (k, ZodOptional v d') :: s2) d) =
    zodToJsonSchema (ZodObject (s1 ++ (k, v) :: s2) d) /\
  getRequiredFields (ZodObject (s1 ++ (k, ZodOptional v d') :: s2) d) =
    getRequiredFields (ZodObject (s1 ++ s2) d).
Proof.
  cbn [zodToJsonSchema getRequiredFields]. split.
  - rewrite !assign_properties_app. cbn.
    destruct (String.eqb k "__proto__"); reflexivity.
  - rewrite !filter_app. reflexivity.
Qed.

(** ** The examples of the additional results *)

Lemma persisted_record_round_trip_witness :
  let td := mkTokenData (Some "AT1") (Some "RT1") (Some 3600) in
  let a := this (fst (saveTokens td fresh_world)) in
  let w' := fst (loadTokens scenario_env (restart a 2000 fresh_world)) in
  accessToken (this w') = Some "AT1" /\
  refreshToken (this w') = Some "RT1" /\
  tokenExpiry (this w') = Some (Time 3301000) /\
  trace w' = [].
Proof.
  intros td a w'.
  destruct (persisted_record_round_trip scenario_env td fresh_world fresh_world 2000)
    as (H1 & H2 & H3 & _ & H5); [reflexivity | reflexivity |].
  split; [exact H1 | split; [exact H2 | split; [exact H3 | exact H5]]].
Defined.

Lemma loadTokens_expired_rejected_witness :
  let w' := fst (loadTokens revoked_env restarted_late) in
  snd (loadTokens revoked_env restarted_late) = Return tt /\
  isAuthenticated (this w') = false /\
  TokenStorage.getTokens (tokenStorage (this w')) = None.
Proof.
  intros w'.
  destruct (loadTokens_expired_rejected revoked_env restarted_late
              (TokenStorage.mkTokens (Some "AT1") (Some "RT1") 3301010) invalid_grant)
    as (Hr & Hc & Hs & _); [reflexivity | reflexivity | reflexivity | reflexivity |].
  split; [exact Hr | split; [| exact Hs]].
  fold w' in Hc. rewrite Hc. reflexivity.
Defined.

Lemma loadTokens_expired_without_refresh_token_witness :
  let w' := fst (loadTokens scenario_env orphan_world) in
  isAuthenticated (this w') = true /\
  trace w' = [] /\
  getAccessToken scenario_env w' = (w', Throw (Error "No refresh token available")).
Proof.
  intros w'.
  destruct (loadTokens_expired_without_refresh_token scenario_env orphan_world orphan_record)
    as (_ & Ha & Ht & _ & Hg); [reflexivity | reflexivity | reflexivity |].
  split; [exact Ha | split; [exact Ht | exact Hg]].
Defined.

Lemma handleCallback_unrepresentable_expiry_witness :
  let w' := fst (handleCallback eternal_env "abc123" fresh_world) in
  snd (handleCallback eternal_env "abc123" fresh_world) = Throw (Error "Authentication failed") /\
  TokenStorage.getTokens (tokenStorage (this w')) = None /\
  snd (getAccessToken eternal_env (at_time 9000000000000000 w')) = Return (Some "AT9").
Proof.
  intros w'.
  destruct (handleCallback_unrepresentable_expiry eternal_env "abc123" fresh_world
              (mkTokenData (Some "AT9") (Some "RT9") (Some 10000000000000000)))
    as (Hr & Hs & _ & _ & Hg); [reflexivity | unfold MAX_TIME; vm_compute; reflexivity |].
  split; [exact Hr | split].
  - fold w' in Hs. rewrite Hs. reflexivity.
  - fold w' in Hg. rewrite Hg. reflexivity.
Defined.

Lemma refresh_save_failure_clears_witness :
  let w' := fst (refreshAccessToken eternal_env authenticated_world) in
  snd (refreshAccessToken eternal_env authenticated_world) =
    Throw (Error "Token refresh failed - please re-authenticate") /\
  accessToken (this w') = None /\
  TokenStorage.getTokens (tokenStorage (this w')) = None.
Proof.
  intros w'.
  destruct (refresh_save_failure_clears eternal_env authenticated_world
              (mkTokenData (Some "AT9") (Some "RT9") (Some 10000000000000000)))
    as (Hr & Ha & _ & _ & Hs);
    [reflexivity | reflexivity | left; unfold MAX_TIME; vm_compute; reflexivity |].
  split; [exact Hr | split; [exact Ha | exact Hs]].
Defined.

Lemma saveTokens_keeps_refresh_token_witness :
  refreshToken
    (this (fst (saveTokens (mkTokenData (Some "AT2") None (Some 3600)) authenticated_world)))
  = Some "RT1".
Proof.
  destruct (saveTokens_keeps_refresh_token
              (mkTokenData (Some "AT2") None (Some 3600)) authenticated_world)
    as [_ [H | H]]; [reflexivity | discriminate H | exact H].
Defined.

Lemma short_lived_token_returned_expired_witness :
  snd (getAccessToken short_env expired_world) = Return (Some "AT2") /\
  snd (isTokenExpired (fst (getAccessToken short_env expired_world))) = Return true.
Proof.
  apply (short_lived_token_returned_expired short_env expired_world
           (mkTokenData (Some "AT2") None (Some 120)) 120);
    try reflexivity; try lia.
  unfold MAX_TIME. vm_compute. discriminate.
Defined.

Lemma request_unauthenticated_witness :
  makeAuthenticatedRequest scenario_env list_issues fresh_world =
  (fresh_world,
   Throw (Error "Not authenticated - please run with --auth flag to authenticate")).
Proof. apply request_unauthenticated. reflexivity. Defined.

Lemma request_first_attempt_ok_witness :
  let w' := fst (makeAuthenticatedRequest scenario_env list_issues authenticated_world) in
  snd (makeAuthenticatedRequest scenario_env list_issues authenticated_world)
    = Return (mkApiResponse 200 "ok") /\
  trace w' = trace authenticated_world ++ [ApiCall list_issues (Bearer (Some "AT1"))].
Proof.
  intros w'.
  destruct (request_first_attempt_ok scenario_env list_issues authenticated_world
              (mkApiResponse 200 "ok")) as (Hr & Ht & _);
    [reflexivity | reflexivity | reflexivity |].
  split; [exact Hr | exact Ht].
Defined.

Lemma request_other_error_witness :
  let w' := fst (makeAuthenticatedRequest broken_api_env list_issues authenticated_world) in
  snd (makeAuthenticatedRequest broken_api_env list_issues authenticated_world)
    = Throw (AxiosError server_error) /\
  trace w' = trace authenticated_world ++ [ApiCall list_issues (Bearer (Some "AT1"))] /\
  this w' = this authenticated_world.
Proof.
  apply (request_other_error broken_api_env list_issues authenticated_world server_error);
    reflexivity.
Defined.

Lemma request_401_refresh_rejected_witness :
  let w' := fst (makeAuthenticatedRequest locked_out_env list_issues authenticated_world) in
  snd (makeAuthenticatedRequest locked_out_env list_issues authenticated_world) =
    Throw (Error "Token refresh failed - please re-authenticate") /\
  trace w' = trace authenticated_world ++
             [ApiCall list_issues (Bearer (Some "AT1"));
              TokenPost (refresh_token_grant "RT1")] /\
  isAuthenticated (this w') = false.
Proof.
  intros w'.
  destruct (request_401_refresh_rejected locked_out_env list_issues authenticated_world
              unauthorized invalid_grant) as (Hr & Ht & Hc);
    [reflexivity | reflexivity | reflexivity | reflexivity | reflexivity | reflexivity |].
  split; [exact Hr | split; [exact Ht |]].
  fold w' in Hc. rewrite Hc. reflexivity.
Defined.

Lemma caller_authorization_wins_witness :
  exists l,
    trace (fst (makeAuthenticatedRequest stale_env signed_request authenticated_world)) =
      trace authenticated_world ++ l /\
    Forall (fun c => is_refresh c = true \/ c = ApiCall signed_request (Custom "Basic abc")) l.
Proof.
  apply (caller_authorization_wins stale_env signed_request authenticated_world "Basic abc").
  reflexivity.
Defined.

Lemma late_rejection_clobbers_witness :
  let cfg := run rotating_env [0; 1; 0]%nat (spawn 2 expired_world) in
  snd cfg = [Settled (Return None);
             Settled (Throw (Error "Token refresh failed - please re-authenticate"))] /\
  isAuthenticated (this (fst cfg)) = false.
Proof.
  intros cfg.
  destruct (late_rejection_clobbers rotating_env expired_world
              (mkTokenData (Some "AT2") (Some "RT2") (Some 3600)) invalid_grant)
    as (Hs & Hc); try reflexivity.
  - unfold MAX_TIME. vm_compute. discriminate.
  - split; [exact Hs |]. fold cfg in Hc. rewrite Hc. reflexivity.
Defined.

Lemma registerTools_total_witness :
  snd (registerTools (list string) sample_registrations ([], [])) = inr 7%nat.
Proof.
  destruct (registerTools_total sample_registrations [2; 1; 0; 1; 1; 0; 1; 0; 1]%nat ([], []))
    as [H _].
  - repeat constructor.
  - exact H.
Defined.

Lemma registerTools_stops_at_first_failure_witness :
  registerTools (list string) broken_registrations ([], []) =
  ((["list_projects"; "get_project"; "list_issues"],
    [mkLog log_info "Registering tools..." None;
     mkLog log_info "Registered 2 Projects tools" None;
     mkLog log_info "Registered 1 Issues tools" None;
     mkLog log_error "Failed to register RFIs tools:" (Some "boom")]),
   inl (Exception (Some "boom"))).
Proof.
  apply (registerTools_stops_at_first_failure broken_registrations
           [("Projects", register_names ["list_projects"; "get_project"]);
            ("Issues", register_names ["list_issues"])]
           [("Submittals", register_names ["list_submittals"]);
            ("Photos", register_names ["list_photos"]);
            ("Forms", register_names []);
            ("Cost", register_names ["get_budget"]);
            ("Locations", register_names []);
            ("Documents", register_names ["search_documents"])]
           "RFIs" (register_failing "boom") ([], [])
           (["list_projects"; "get_project"; "list_issues"],
            [mkLog log_info "Registering tools..." None;
             mkLog log_info "Registered 2 Projects tools" None;
             mkLog log_info "Registered 1 Issues tools" None])
           (["list_projects"; "get_project"; "list_issues"],
            [mkLog log_info "Registering tools..." None;
             mkLog log_info "Registered 2 Projects tools" None;
             mkLog log_info "Registered 1 Issues tools" None])
           3%nat (Exception (Some "boom")));
    reflexivity.
Defined.


Lemma tool_handler_validation_failure_witness :
  tool_handler (list string) "get_project" parse_project_id echo_handler quote_stringify
               None ([], []) =
  (([], []), inr (mkToolResult (Some "Validation error: projectId: Required") true)).
Proof.
  destruct (tool_handler_validation_failure "get_project" parse_project_id echo_handler
              quote_stringify None ([], []) [mkIssue [Key "projectId"] "Required"])
    as [H _].
  apply H. reflexivity.
Defined.

Lemma tool_handler_isError_witness :
  isError (mkToolResult (Some "p1") false) = false <->
  exists v st1 res,
    parse_project_id (Some "p1") = inr v /\
    echo_handler v ([], []) = (st1, inr res) /\
    quote_stringify res = inr (Some "p1").
Proof.
  apply (tool_handler_isError "get_project" parse_project_id echo_handler quote_stringify
           (Some "p1") ([], []) (mkToolResult (Some "p1") false)).
  reflexivity.
Defined.
